(** * DataDrift: the remote session and transfer coordinator of [main.py]

    A shallow embedding of [SCPClientApp] and [RemoteFileModel].  The
    application object is a record, the SSH/SFTP server side is an explicit
    world (client objects, remote file systems, a schedule of transport
    failures and a trace of the transport calls made), and every method is a
    function in a state-and-exception monad over the pair of both.  The
    widget layout and [load_connections] touch none of this state and are
    left out. *)

From Stdlib Require Import ZArith NArith Lia.
From Stdlib.Strings Require Import Ascii String Byte.
From stdpp Require Import base tactics option list strings gmap.

Local Open Scope Z_scope.

(** ** Python strings used as paths: [os.path.join] (posixpath) *)

Module Path.

Definition sep : ascii := "/"%char.

Definition startswith_sep (s : string) : bool :=
  match s with
  | String c _ => Ascii.eqb c sep
  | EmptyString => false
  end.

Fixpoint endswith_sep (s : string) : bool :=
  match s with
  | EmptyString => false
  | String c EmptyString => Ascii.eqb c sep
  | String _ r => endswith_sep r
  end.

Definition is_empty (s : string) : bool :=
  match s with EmptyString => true | _ => false end.

(** [posixpath.join(a, b)]: an absolute [b] replaces [a]; otherwise [b] is
    appended, with a separator unless [a] is empty or already ends in one. *)
Definition os_path_join (a b : string) : string :=
  if startswith_sep b then b
  else if is_empty a || endswith_sep a then a +:+ b
  else a +:+ String sep b.

(** [s.split('/')] *)
Fixpoint split_sep (s : string) : list string :=
  match s with
  | EmptyString => [EmptyString]
  | String c r =>
      if Ascii.eqb c sep then EmptyString :: split_sep r
      else match split_sep r with
           | h :: t => String c h :: t
           | [] => [String c EmptyString]
           end
  end.

Fixpoint has_sep (s : string) : bool :=
  match s with
  | EmptyString => false
  | String c r => Ascii.eqb c sep || has_sep r
  end.

(** A directory entry name as a server lists it: not empty, no separator,
    neither of the two dot entries. *)
Definition valid_name (n : string) : bool :=
  negb (is_empty n) && negb (has_sep n)
  && negb (String.eqb n ".") && negb (String.eqb n "..").

(** One component of a path applied to the directory reached so far. *)
Definition walk (dir : list string) (c : string) : list string :=
  if is_empty c || String.eqb c "." then dir
  else if String.eqb c ".." then removelast dir
  else dir ++ [c].

(** The server resolves a path string against the session's working
    directory; an absolute path starts again from the root. *)
Definition resolve (cwd : list string) (p : string) : list string :=
  fold_left walk (split_sep p) (if startswith_sep p then [] else cwd).

Definition basename (p : string) : string :=
  List.last (split_sep p) EmptyString.

End Path.

Export Path.

(** ** Python exceptions and values *)

Inductive exn : Type :=
| IOError (msg : string)              (* the OSError family, what [except IOError] catches *)
| AttributeError (msg : string)
| TypeError (msg : string)
| IndexError (msg : string)
| UnicodeDecodeError
| UnicodeEncodeError
| OtherException (name msg : string). (* any other subclass of Exception *)

Definition is_IOError (e : exn) : bool :=
  match e with IOError _ => true | _ => false end.

Inductive outcome (A : Type) : Type :=
| Return (a : A)
| Raise (e : exn).
Arguments Return {A} a.
Arguments Raise {A} e.

Definition raised {A} (o : outcome A) : bool :=
  match o with Raise _ => true | Return _ => false end.

(** [l[i]] for a Python list: negative indices count from the end. *)
Definition py_getitem {A} (l : list A) (i : Z) : outcome A :=
  let n := Z.of_nat (length l) in
  let j := if i <? 0 then i + n else i in
  if (0 <=? j) && (j <? n) then
    match l !! Z.to_nat j with
    | Some x => Return x
    | None => Raise (IndexError "list index out of range")
    end
  else Raise (IndexError "list index out of range").

(** What [is_directory] can hand back: an [int] or the constant [False]. *)
Inductive pyval : Type :=
| PyInt (z : Z)
| PyBool (b : bool).

Definition truthy (v : pyval) : bool :=
  match v with
  | PyInt z => negb (z =? 0)
  | PyBool b => b
  end.

(** ** State and exception monad

    A method runs on a state, may change it, and either returns a value or
    raises; the changes made before a [raise] stay, as in Python. *)

Section Monad.
Context {S : Type}.

Definition M (A : Type) : Type := S -> outcome A * S.

Definition ret {A} (a : A) : M A := fun s => (Return a, s).
Definition throw {A} (e : exn) : M A := fun s => (Raise e, s).

Definition bind {A B} (m : M A) (k : A -> M B) : M B :=
  fun s => match m s with
           | (Return a, s') => k a s'
           | (Raise e, s') => (Raise e, s')
           end.

Definition gets {A} (f : S -> A) : M A := fun s => (Return (f s), s).
Definition modify (f : S -> S) : M unit := fun s => (Return tt, f s).

(** [try: body except Exception as e: handler e] *)
Definition try_except {A} (body : M A) (handler : exn -> M A) : M A :=
  fun s => match body s with
           | (Return a, s') => (Return a, s')
           | (Raise e, s') => handler e s'
           end.

(** [try: body except IOError: handler] *)
Definition try_except_IOError {A} (body : M A) (handler : M A) : M A :=
  fun s => match body s with
           | (Raise e, s') => if is_IOError e then handler s' else (Raise e, s')
           | r => r
           end.

Definition of_outcome {A} (o : outcome A) : M A := fun s => (o, s).
End Monad.
Arguments M : clear implicits.

Notation "'let*' x ':=' m 'in' k" := (bind m (fun x => k))
  (at level 10, x name, m at level 100, k at level 200).
Notation "m ';;;' k" := (bind m (fun _ => k))
  (at level 100, k at level 200, right associativity).

(** ** [RemoteFileModel] *)

Module Qt.

(** A [QModelIndex]: row, column and whether it belongs to a model. *)
Record QModelIndex : Type := mkIndex {
  row : Z;
  column : Z;
  has_model : bool
}.

(** [QModelIndex()] *)
Definition invalid_index : QModelIndex := mkIndex (-1) (-1) false.

Definition isValid (i : QModelIndex) : bool :=
  (0 <=? row i) && (0 <=? column i) && has_model i.

(** [createIndex(row, column, ptr)] *)
Definition createIndex (r c : Z) : QModelIndex := mkIndex r c true.

Definition DisplayRole : Z := 0.

End Qt.

Export Qt.

Module RemoteFileModel.

Record t : Type := mk { _data : list string }.

(** [self._data = data if data else []] *)
Definition init (data : option (list string)) : t :=
  match data with
  | Some (x :: l) => mk (x :: l)
  | _ => mk []
  end.

Definition rowCount (self : t) (parent : QModelIndex) : Z :=
  if negb (isValid parent) then Z.of_nat (length (_data self)) else 0.

Definition columnCount (self : t) (parent : QModelIndex) : Z := 1.

(** [data(index, role)]: [None] stands for Python's [None]. *)
Definition data (self : t) (index : QModelIndex) (role : Z) : outcome (option string) :=
  if negb (isValid index) then Return None
  else if role =? DisplayRole then
    match py_getitem (_data self) (row index) with
    | Return x => Return (Some x)
    | Raise e => Raise e
    end
  else Return None.

(** [QAbstractItemModel.hasIndex] *)
Definition hasIndex (self : t) (r c : Z) (parent : QModelIndex) : bool :=
  if (r <? 0) || (c <? 0) then false
  else (r <? rowCount self parent) && (c <? columnCount self parent).

(** [index(row, column, parent)] for a row and a column that Qt accepts as
    C [int]; PyQt refuses any other number before the method body runs. *)
Definition index (self : t) (r c : Z) (parent : QModelIndex) : outcome QModelIndex :=
  if negb (hasIndex self r c parent) then Return invalid_index
  else match py_getitem (_data self) r with
       | Return _ => Return (createIndex r c)
       | Raise e => Raise e
       end.

Definition parent (self : t) (index : QModelIndex) : QModelIndex := invalid_index.

End RemoteFileModel.

(** ** The server side: clients, remote file systems, failures

    Every [paramiko.SSHClient()] the application creates is an entry of
    [clients]; a handle is its position.  A path on a host is the list of its
    components from the root.  [faults] is the schedule of transport failures:
    each transport call takes the next entry, and [Some f] makes that call
    raise [f_exn f].  [trace] records the transport calls in order. *)

Definition handle : Type := nat.

Inductive kind : Type :=
| Regular | Directory | CharDevice | BlockDevice | Fifo | Socket.

(** The file type bits of [st_mode] (octal 0170000 mask). *)
Definition S_IFMT (k : kind) : Z :=
  match k with
  | Fifo => 4096          (* 0o010000 *)
  | CharDevice => 8192    (* 0o020000 *)
  | Directory => 16384    (* 0o040000 *)
  | BlockDevice => 24576  (* 0o060000 *)
  | Regular => 32768      (* 0o100000 *)
  | Socket => 49152       (* 0o140000 *)
  end.

Record node : Type := mkNode {
  n_kind : kind;
  n_perm : Z;
  n_data : list byte
}.

Definition st_mode (n : node) : Z :=
  Z.lor (S_IFMT (n_kind n)) (Z.land (n_perm n) 4095).

Abbreviation filesystem := (gmap (list string) node).

Fixpoint split_last {A} (l : list A) : option (list A * A) :=
  match l with
  | [] => None
  | [x] => Some ([], x)
  | x :: r => match split_last r with
              | Some (q, y) => Some (x :: q, y)
              | None => None
              end
  end.

Definition child_of (d : list string) (e : list string * node) : option string :=
  match split_last (fst e) with
  | Some (q, n) => if decide (q = d) then Some n else None
  | None => None
  end.

(** The names of the entries of directory [d]. *)
Definition listdir_names (fs : filesystem) (d : list string) : list string :=
  omap (child_of d) (map_to_list fs).

Inductive status : Type := Fresh | Live | Closed.

Record client : Type := mkClient {
  c_host : string;
  c_user : string;
  c_status : status
}.

Record fault : Type := mkFault {
  f_exn : exn;
  f_progress : nat   (* bytes a failing write got through first *)
}.

Inductive fmode : Type := ModeR | ModeW.

Inductive call : Type :=
| CallConnect (h : handle) (host username : string)
| CallOpenSftp (h : handle)
| CallClose (h : handle)
| CallListdir (h : handle) (p : string)
| CallStat (h : handle) (p : string)
| CallFile (h : handle) (p : string) (m : fmode)
| CallRead (h : handle) (f : list string)
| CallWrite (h : handle) (f : list string) (bytes : list byte)
| CallRemove (h : handle) (p : string)
| CallPut (h : handle) (local remote : string)
| CallGet (h : handle) (remote local : string).

Record world : Type := mkWorld {
  clients : list client;
  hosts : gmap string filesystem;
  local_files : gmap string (list byte);
  faults : list (option fault);
  trace : list call
}.

Definition set_clients (f : list client -> list client) (w : world) : world :=
  mkWorld (f (clients w)) (hosts w) (local_files w) (faults w) (trace w).
Definition set_hosts (f : gmap string filesystem -> gmap string filesystem) (w : world) : world :=
  mkWorld (clients w) (f (hosts w)) (local_files w) (faults w) (trace w).
Definition set_local_files (f : gmap string (list byte) -> gmap string (list byte)) (w : world) : world :=
  mkWorld (clients w) (hosts w) (f (local_files w)) (faults w) (trace w).
Definition set_faults (f : list (option fault) -> list (option fault)) (w : world) : world :=
  mkWorld (clients w) (hosts w) (local_files w) (f (faults w)) (trace w).
Definition set_trace (f : list call -> list call) (w : world) : world :=
  mkWorld (clients w) (hosts w) (local_files w) (faults w) (f (trace w)).

Definition is_live (w : world) (h : handle) : bool :=
  match clients w !! h with
  | Some c => match c_status c with Live => true | _ => false end
  | None => false
  end.

(** The transports that are open at the same time. *)
Definition live_transports (w : world) : list handle :=
  filter (fun h => is_live w h = true) (seq 0 (length (clients w))).

(** What the schedule holds for the transport call after the next [i]:
    [None] lets the call through. *)
Definition nth_fault (i : nat) (w : world) : option fault :=
  default None (faults w !! i).

(** The world once transport call [c] has been logged and has taken its
    entry of the schedule. *)
Definition served (c : call) (w : world) : world :=
  set_faults tail (set_trace (fun t => t ++ [c]) w).

Module Transport.

Definition log (c : call) : M world unit :=
  modify (set_trace (fun t => t ++ [c])).

Definition next_fault : M world (option fault) :=
  fun w => (Return (default None (head (faults w))), set_faults tail w).

Definition live_client (h : handle) : M world client :=
  let* c := gets (fun w => clients w !! h) in
  match c with
  | Some c => match c_status c with
              | Live => ret c
              | _ => throw (IOError "Socket is closed")
              end
  | None => throw (IOError "Socket is closed")
  end.

Definition home (c : client) : list string := ["home"; c_user c].

Definition fs_of (w : world) (c : client) : filesystem :=
  default ∅ (hosts w !! c_host c).

Definition put_fs (c : client) (fs : filesystem) : M world unit :=
  modify (set_hosts (fun hs => <[c_host c := fs]> hs)).

(** A request over the transport of client [h]: logged, then failed by the
    schedule or by a transport that is not open, then served. *)
Definition request {A} (h : handle) (c : call)
    (serve : client -> filesystem -> M world A) : M world A :=
  log c ;;;
  let* f := next_fault in
  match f with
  | Some f => throw (f_exn f)
  | None =>
      let* cl := live_client h in
      let* fs := gets (fun w => fs_of w cl) in
      serve cl fs
  end.

(** [paramiko.SSHClient()] *)
Definition SSHClient : M world handle :=
  let* h := gets (fun w => length (clients w)) in
  modify (set_clients (fun cs => cs ++ [mkClient "" "" Fresh])) ;;;
  ret h.

(** [ssh.connect(host, username=..., password=...)] *)
Definition connect (h : handle) (host username password : string) : M world unit :=
  log (CallConnect h host username) ;;;
  let* f := next_fault in
  match f with
  | Some f => throw (f_exn f)
  | None => modify (set_clients (fun cs => <[h := mkClient host username Live]> cs))
  end.

(** [ssh.open_sftp()]: the SFTP session runs on the transport of [h]. *)
Definition open_sftp (h : handle) : M world handle :=
  request h (CallOpenSftp h) (fun _ _ => ret h).

(** [ssh.close()]: closing a client that never connected changes nothing. *)
Definition close (h : handle) : M world unit :=
  log (CallClose h) ;;;
  let* f := next_fault in
  match f with
  | Some f => throw (f_exn f)
  | None =>
      modify (set_clients (fun cs =>
        match cs !! h with
        | Some c => match c_status c with
                    | Live => <[h := mkClient (c_host c) (c_user c) Closed]> cs
                    | _ => cs
                    end
        | None => cs
        end))
  end.

Definition listdir (h : handle) (p : string) : M world (list string) :=
  request h (CallListdir h p) (fun cl fs =>
    let d := resolve (home cl) p in
    match fs !! d with
    | Some n => match n_kind n with
                | Directory => ret (listdir_names fs d)
                | _ => throw (IOError "Not a directory")
                end
    | None => throw (IOError "No such file")
    end).

(** [sftp.stat(path).st_mode] *)
Definition stat (h : handle) (p : string) : M world Z :=
  request h (CallStat h p) (fun cl fs =>
    match fs !! resolve (home cl) p with
    | Some n => ret (st_mode n)
    | None => throw (IOError "No such file")
    end).

(** [sftp.file(path, mode)]: ['w'] creates the file or truncates it at once;
    the open file is named by its resolved path. *)
Definition file (h : handle) (p : string) (m : fmode) : M world (list string) :=
  request h (CallFile h p m) (fun cl fs =>
    let f := resolve (home cl) p in
    match m, fs !! f with
    | ModeR, Some _ => ret f
    | ModeR, None => throw (IOError "No such file")
    | ModeW, Some n =>
        match n_kind n with
        | Directory => throw (IOError "Is a directory")
        | k => put_fs cl (<[f := mkNode k (n_perm n) []]> fs) ;;; ret f
        end
    | ModeW, None =>
        match split_last f with
        | Some (d, _) =>
            match fs !! d with
            | Some dn => match n_kind dn with
                         | Directory =>
                             put_fs cl (<[f := mkNode Regular 420 []]> fs) ;;; ret f
                         | _ => throw (IOError "Not a directory")
                         end
            | None => throw (IOError "No such file")
            end
        | None => throw (IOError "Is a directory")
        end
    end).

(** [remote_file.read()] *)
Definition read (h : handle) (f : list string) : M world (list byte) :=
  request h (CallRead h f) (fun cl fs =>
    match fs !! f with
    | Some n => match n_kind n with
                | Directory => throw (IOError "Is a directory")
                | _ => ret (n_data n)
                end
    | None => throw (IOError "No such file")
    end).

Definition store (cl : client) (f : list string) (bytes : list byte) : M world unit :=
  let* fs := gets (fun w => fs_of w cl) in
  match fs !! f with
  | Some n => put_fs cl (<[f := mkNode (n_kind n) (n_perm n) bytes]> fs)
  | None => throw (IOError "No such file")
  end.

(** [remote_file.write(bytes)] on a file just opened with ['w']: a failure on
    the way leaves the bytes that got through. *)
Definition write (h : handle) (f : list string) (bytes : list byte) : M world unit :=
  log (CallWrite h f bytes) ;;;
  let* flt := next_fault in
  let* cl := live_client h in
  match flt with
  | Some flt => store cl f (take (f_progress flt) bytes) ;;; throw (f_exn flt)
  | None => store cl f bytes
  end.

Definition remove (h : handle) (p : string) : M world unit :=
  request h (CallRemove h p) (fun cl fs =>
    let f := resolve (home cl) p in
    match fs !! f with
    | Some n => match n_kind n with
                | Directory => throw (IOError "Is a directory")
                | _ => put_fs cl (delete f fs)
                end
    | None => throw (IOError "No such file")
    end).

(** [scp.put(local, remote)]: the local file goes into [remote] when that is
    a directory, otherwise to the path [remote] itself. *)
Definition put (h : handle) (local remote : string) : M world unit :=
  request h (CallPut h local remote) (fun cl fs =>
    let* src := gets (fun w => local_files w !! local) in
    match src with
    | None => throw (IOError "No such file")
    | Some bytes =>
        let r := resolve (home cl) remote in
        let target := match fs !! r with
                      | Some n => match n_kind n with
                                  | Directory => r ++ [basename local]
                                  | _ => r
                                  end
                      | None => r
                      end in
        put_fs cl (<[target := mkNode Regular 420 bytes]> fs)
    end).

(** [scp.get(remote, local_dir)] *)
Definition get (h : handle) (remote local_dir : string) : M world unit :=
  request h (CallGet h remote local_dir) (fun cl fs =>
    match fs !! resolve (home cl) remote with
    | Some n =>
        match n_kind n with
        | Regular =>
            modify (set_local_files (fun lf =>
              <[os_path_join local_dir (basename remote) := n_data n]> lf))
        | _ => throw (OtherException "SCPException" "not a regular file")
        end
    | None => throw (OtherException "SCPException" "No such file or directory")
    end).

End Transport.

(** ** [bytes.decode()] and [str.encode()]: strict UTF-8

    A Python [str] is the list of its code points. *)

Module Utf8.
Local Open Scope N_scope.

Definition between (lo hi x : N) : bool := (lo <=? x) && (x <=? hi).

Definition cont (x : N) : bool := between 128 191 x.

(** The second byte of a three-byte form: no overlong form, no surrogate. *)
Definition second3 (x0 x1 : N) : bool :=
  if x0 =? 224 then between 160 191 x1
  else if x0 =? 237 then between 128 159 x1
  else cont x1.

(** The second byte of a four-byte form: no overlong form, at most U+10FFFF. *)
Definition second4 (x0 x1 : N) : bool :=
  if x0 =? 240 then between 144 191 x1
  else if x0 =? 244 then between 128 143 x1
  else cont x1.

Fixpoint decode (bs : list byte) : option (list N) :=
  match bs with
  | [] => Some []
  | b0 :: r0 =>
      let x0 := Byte.to_N b0 in
      if x0 <? 128 then cons x0 <$> decode r0
      else
        match r0 with
        | [] => None
        | b1 :: r1 =>
            let x1 := Byte.to_N b1 in
            if between 194 223 x0 then
              if cont x1
              then cons ((x0 - 192) * 64 + (x1 - 128)) <$> decode r1
              else None
            else
              match r1 with
              | [] => None
              | b2 :: r2 =>
                  let x2 := Byte.to_N b2 in
                  if between 224 239 x0 then
                    if second3 x0 x1 && cont x2
                    then cons ((x0 - 224) * 4096 + (x1 - 128) * 64 + (x2 - 128))
                           <$> decode r2
                    else None
                  else
                    match r2 with
                    | [] => None
                    | b3 :: r3 =>
                        let x3 := Byte.to_N b3 in
                        if between 240 244 x0 && second4 x0 x1 && cont x2 && cont x3
                        then cons ((x0 - 240) * 262144 + (x1 - 128) * 4096
                                   + (x2 - 128) * 64 + (x3 - 128))
                               <$> decode r3
                        else None
                    end
              end
        end
  end.

Definition byte_of (n : N) : byte := default Byte.x00 (Byte.of_N n).

Definition encode_char (c : N) : option (list byte) :=
  if c <? 128 then Some [byte_of c]
  else if c <? 2048 then Some [byte_of (192 + c / 64); byte_of (128 + c mod 64)]
  else if c <? 65536 then
    if between 55296 57343 c then None
    else Some [byte_of (224 + c / 4096); byte_of (128 + (c / 64) mod 64);
               byte_of (128 + c mod 64)]
  else if c <? 1114112 then
    Some [byte_of (240 + c / 262144); byte_of (128 + (c / 4096) mod 64);
          byte_of (128 + (c / 64) mod 64); byte_of (128 + c mod 64)]
  else None.

Fixpoint encode (text : list N) : option (list byte) :=
  match text with
  | [] => Some []
  | c :: r =>
      match encode_char c, encode r with
      | Some bs, Some rest => Some (bs ++ rest)
      | _, _ => None
      end
  end.

End Utf8.

(** ** [SCPClientApp] *)

(** What the user gets to see: message boxes, and lines printed to the
    console.  [Critical title text e] is the box whose text is [text]
    followed by [str(e)]. *)
Inductive ui_event : Type :=
| Information (title text : string)
| Warning (title text : string)
| Critical (title text : string) (e : exn)
| Printed (text : string)
| PrintedExn (text : string) (e : exn).

Record SCPClientApp : Type := mkApp {
  remote_path : string;
  ssh : option handle;
  sftp : option handle;
  scp : option handle;
  remote_model : RemoteFileModel.t;
  text_editor : list N;
  text_editor_visible : bool;
  status_bar : string;
  shown : list ui_event
}.

(** [__init__] and [initUI] *)
Definition init : SCPClientApp :=
  mkApp "." None None None (RemoteFileModel.init None) [] false "" [].

Definition set_remote_path (v : string) (a : SCPClientApp) : SCPClientApp :=
  mkApp v (ssh a) (sftp a) (scp a) (remote_model a) (text_editor a)
        (text_editor_visible a) (status_bar a) (shown a).
Definition set_ssh (v : option handle) (a : SCPClientApp) : SCPClientApp :=
  mkApp (remote_path a) v (sftp a) (scp a) (remote_model a) (text_editor a)
        (text_editor_visible a) (status_bar a) (shown a).
Definition set_sftp (v : option handle) (a : SCPClientApp) : SCPClientApp :=
  mkApp (remote_path a) (ssh a) v (scp a) (remote_model a) (text_editor a)
        (text_editor_visible a) (status_bar a) (shown a).
Definition set_scp (v : option handle) (a : SCPClientApp) : SCPClientApp :=
  mkApp (remote_path a) (ssh a) (sftp a) v (remote_model a) (text_editor a)
        (text_editor_visible a) (status_bar a) (shown a).
Definition set_remote_model (v : RemoteFileModel.t) (a : SCPClientApp) : SCPClientApp :=
  mkApp (remote_path a) (ssh a) (sftp a) (scp a) v (text_editor a)
        (text_editor_visible a) (status_bar a) (shown a).
Definition set_text_editor (v : list N) (a : SCPClientApp) : SCPClientApp :=
  mkApp (remote_path a) (ssh a) (sftp a) (scp a) (remote_model a) v
        (text_editor_visible a) (status_bar a) (shown a).
Definition set_text_editor_visible (v : bool) (a : SCPClientApp) : SCPClientApp :=
  mkApp (remote_path a) (ssh a) (sftp a) (scp a) (remote_model a) (text_editor a)
        v (status_bar a) (shown a).
Definition set_status_bar (v : string) (a : SCPClientApp) : SCPClientApp :=
  mkApp (remote_path a) (ssh a) (sftp a) (scp a) (remote_model a) (text_editor a)
        (text_editor_visible a) v (shown a).
Definition show (e : ui_event) (a : SCPClientApp) : SCPClientApp :=
  mkApp (remote_path a) (ssh a) (sftp a) (scp a) (remote_model a) (text_editor a)
        (text_editor_visible a) (status_bar a) (shown a ++ [e]).

(** A method runs on the application object and the world together. *)
Abbreviation cfg := (SCPClientApp * world)%type.

Definition self {A} (f : SCPClientApp -> A) : M cfg A := gets (fun s => f (fst s)).
Definition update (f : SCPClientApp -> SCPClientApp) : M cfg unit :=
  modify (fun s => (f (fst s), snd s)).
Definition remote {A} (m : M world A) : M cfg A :=
  fun s => match m (snd s) with (r, w) => (r, (fst s, w)) end.

(** Calling a method of an attribute that may be [None]. *)
Definition attr {A} (o : option handle) (name : string) (k : handle -> M cfg A) : M cfg A :=
  match o with
  | Some h => k h
  | None => throw (AttributeError name)
  end.

(** [os.path.join(path, name)] where [name] may be [None]. *)
Definition join (path : string) (name : option string) : M cfg string :=
  match name with
  | Some n => ret (os_path_join path n)
  | None => throw (TypeError "expected str, bytes or os.PathLike object, not NoneType")
  end.

Definition truth (s : string) : bool := negb (is_empty s).

Definition QMessageBox_information (title text : string) : M cfg unit :=
  update (show (Information title text)).
Definition QMessageBox_warning (title text : string) : M cfg unit :=
  update (show (Warning title text)).
Definition QMessageBox_critical (title text : string) (e : exn) : M cfg unit :=
  update (show (Critical title text e)).
Definition showMessage (text : string) : M cfg unit :=
  update (set_status_bar text).
Definition print (text : string) : M cfg unit :=
  update (show (Printed text)).
Definition print_exn (text : string) (e : exn) : M cfg unit :=
  update (show (PrintedExn text e)).

Definition connected (a : SCPClientApp) : bool :=
  match ssh a, sftp a with
  | Some _, Some _ => true
  | _, _ => false
  end.

Definition _connect_ssh_thread (host username password : string) : M cfg unit :=
  let* c := remote Transport.SSHClient in
  update (set_ssh (Some c)) ;;;
  remote (Transport.connect c host username password) ;;;
  let* s := remote (Transport.open_sftp c) in
  update (set_sftp (Some s)) ;;;
  update (set_scp (Some c)).

Definition populate_remote_file_tree (remote_files : list string) : M cfg unit :=
  update (set_remote_model (RemoteFileModel.init (Some remote_files))) ;;;
  let* p := self remote_path in
  showMessage ("Loaded remote directory: " +:+ p).

Definition load_remote_directory : M cfg unit :=
  let* a := self id in
  if negb (connected a) then
    QMessageBox_warning "No Connection"
      "You must be connected to a server to refresh the remote directory."
  else
    try_except
      (let* files := attr (sftp a) "listdir" (fun h =>
                       remote (Transport.listdir h (remote_path a))) in
       populate_remote_file_tree files)
      (fun e =>
         QMessageBox_critical "Error" "Failed to load remote directory: " e ;;;
         print_exn "Error loading remote directory: " e).

Definition connect_ssh (host username password : string) : M cfg unit :=
  if truth host && truth username && truth password then
    try_except
      (_connect_ssh_thread host username password ;;;
       QMessageBox_information "Connection Success"
         "Connected to the server successfully!" ;;;
       showMessage ("Connected to " +:+ host) ;;;
       load_remote_directory)
      (fun e => QMessageBox_critical "Connection Failed" "Error: " e)
  else ret tt.

(** [self.sftp.stat(path).st_mode] *)
Definition stat_st_mode (path : string) : M cfg Z :=
  let* s := self sftp in
  attr s "stat" (fun h => remote (Transport.stat h path)).

Definition is_directory (path : string) : M cfg pyval :=
  try_except_IOError
    (let* mode := stat_st_mode path in
     ret (PyInt (Z.land mode 16384)))   (* st_mode & 0o040000 *)
    (ret (PyBool false)).

Definition remote_directory_navigate (index : QModelIndex) : M cfg unit :=
  let* m := self remote_model in
  let* selected_item := of_outcome (RemoteFileModel.data m index DisplayRole) in
  let* here := self remote_path in
  let* new_path := join here selected_item in
  let* d := is_directory new_path in
  if truthy d then
    update (set_remote_path new_path) ;;;
    load_remote_directory
  else
    print (new_path +:+ " is not a directory.").

Definition disconnect_ssh : M cfg unit :=
  let* s := self ssh in
  match s with
  | Some h =>
      try_except
        (remote (Transport.close h) ;;;
         update (set_sftp None) ;;;
         update (set_ssh None) ;;;
         showMessage "Disconnected" ;;;
         QMessageBox_information "Disconnected" "Disconnected from the server.")
        (fun e => QMessageBox_critical "Disconnection Failed" "Error disconnecting: " e)
  | None =>
      QMessageBox_warning "No Connection" "No active connection to disconnect."
  end.

(** [selectedIndexes()[0]] followed by [model().data(index, Qt.DisplayRole)]
    and [os.path.join(self.remote_path, name)]: the name and the path of the
    selected remote entry. *)
Definition selected_remote (selection : list QModelIndex) : M cfg (string * string) :=
  let* remote_index := of_outcome (py_getitem selection 0) in
  let* m := self remote_model in
  let* remote_file_name := of_outcome (RemoteFileModel.data m remote_index DisplayRole) in
  let* here := self remote_path in
  let* remote_file_path := join here remote_file_name in
  ret (default EmptyString remote_file_name, remote_file_path).

(** [local_selection]: the paths of the entries selected in the local tree. *)
Definition upload_file (local_selection : list string) : M cfg unit :=
  let* a := self id in
  if negb (connected a) then
    QMessageBox_warning "No Connection"
      "You must be connected to a server to upload files."
  else
    let* local_file_path := of_outcome (py_getitem local_selection 0) in
    try_except
      (attr (scp a) "put" (fun h =>
         remote (Transport.put h local_file_path (remote_path a))) ;;;
       QMessageBox_information "Upload Success"
         ("Uploaded " +:+ local_file_path +:+ " to remote server."))
      (fun e => QMessageBox_critical "Upload Failed" "Error uploading file: " e).

(** [local_download_dir]: what the directory dialog returns, empty when the
    user cancels. *)
Definition download_file (selection : list QModelIndex) (local_download_dir : string)
    : M cfg unit :=
  let* a := self id in
  if negb (connected a) then
    QMessageBox_warning "No Connection"
      "You must be connected to a server to download files."
  else
    let* sel := selected_remote selection in
    let remote_file_path := snd sel in
    if truth local_download_dir then
      try_except
        (attr (scp a) "get" (fun h =>
           remote (Transport.get h remote_file_path local_download_dir)) ;;;
         QMessageBox_information "Download Success"
           ("Downloaded " +:+ remote_file_path +:+ " to " +:+ local_download_dir +:+ "."))
        (fun e => QMessageBox_critical "Download Failed" "Error downloading file: " e)
    else ret tt.

Definition decode (bytes : list byte) : M cfg (list N) :=
  match Utf8.decode bytes with
  | Some text => ret text
  | None => throw UnicodeDecodeError
  end.

Definition encode (text : list N) : M cfg (list byte) :=
  match Utf8.encode text with
  | Some bytes => ret bytes
  | None => throw UnicodeEncodeError
  end.

Definition open_file (selection : list QModelIndex) : M cfg unit :=
  let* a := self id in
  if connected a then
    let* sel := selected_remote selection in
    let remote_file_name := fst sel in
    let remote_file_path := snd sel in
    try_except
      (let* bytes := attr (sftp a) "file" (fun h =>
                       let* remote_file := remote (Transport.file h remote_file_path ModeR) in
                       remote (Transport.read h remote_file)) in
       let* file_contents := decode bytes in
       update (set_text_editor file_contents) ;;;
       update (set_text_editor_visible true) ;;;
       showMessage ("Opened file: " +:+ remote_file_name))
      (fun e => QMessageBox_critical "Error" "Error opening file: " e)
  else
    QMessageBox_warning "No Connection"
      "You must be connected to a server to open files.".

Definition save_file (selection : list QModelIndex) : M cfg unit :=
  let* a := self id in
  if connected a then
    let* sel := selected_remote selection in
    let remote_file_name := fst sel in
    let remote_file_path := snd sel in
    try_except
      (let updated_content := text_editor a in
       attr (sftp a) "file" (fun h =>
         let* remote_file := remote (Transport.file h remote_file_path ModeW) in
         let* bytes := encode updated_content in
         remote (Transport.write h remote_file bytes)) ;;;
       QMessageBox_information "Save Success" ("Saved changes to " +:+ remote_file_name))
      (fun e => QMessageBox_critical "Error" "Error saving file: " e)
  else
    QMessageBox_warning "No Connection"
      "You must be connected to a server to save files.".

Definition delete_file (selection : list QModelIndex) : M cfg unit :=
  let* a := self id in
  if connected a then
    let* sel := selected_remote selection in
    let remote_file_name := fst sel in
    let remote_file_path := snd sel in
    try_except
      (attr (sftp a) "remove" (fun h => remote (Transport.remove h remote_file_path)) ;;;
       load_remote_directory ;;;
       QMessageBox_information "Delete Success" ("Deleted " +:+ remote_file_name))
      (fun e => QMessageBox_critical "Error" "Error deleting file: " e)
  else
    QMessageBox_warning "No Connection"
      "You must be connected to a server to delete files.".

(** A sequence of presses of the Connect button, each with what the user
    types into the three dialogs. *)
Fixpoint connect_all (calls : list (string * string * string)) (s : cfg) : cfg :=
  match calls with
  | [] => s
  | (host, username, password) :: rest =>
      connect_all rest (snd (connect_ssh host username password s))
  end.

(** The remote operations behind the toolbar, with what the user selected. *)
Inductive operation : Type :=
| Refresh
| Upload (local_selection : list string)
| Download (selection : list QModelIndex) (local_download_dir : string)
| Open (selection : list QModelIndex)
| Save (selection : list QModelIndex)
| Delete (selection : list QModelIndex).

Definition run (op : operation) : M cfg unit :=
  match op with
  | Refresh => load_remote_directory
  | Upload sel => upload_file sel
  | Download sel d => download_file sel d
  | Open sel => open_file sel
  | Save sel => save_file sel
  | Delete sel => delete_file sel
  end.

Definition is_close (c : call) : bool :=
  match c with CallClose _ => true | _ => false end.

(** Nothing was torn down between [w] and [w']: every transport open in [w]
    is open in [w'], and no [close] call was added to the trace. *)
Definition stays_open (w w' : world) : Prop :=
  (forall h, is_live w h = true -> is_live w' h = true)
  /\ filter (fun c => is_close c = true) (trace w')
     = filter (fun c => is_close c = true) (trace w).

(** A computation that tears nothing down, whatever state it starts from;
    [proj] finds the world in the state. *)
Definition keeps_open {S A : Type} (proj : S -> world) (m : M S A) : Prop :=
  forall s, stays_open (proj s) (proj (snd (m s))).

(** The session state of the application object: [Disconnected] is both
    handles [None]. *)
Definition session (a : SCPClientApp) : option handle * option handle :=
  (ssh a, sftp a).

(** The bytes of the remote file [f] as client [cl] sees them. *)
Definition content (w : world) (cl : client) (f : list string) : option (list byte) :=
  n_data <$> (Transport.fs_of w cl !! f).

(** What a size ceiling on [open_file] would mean: every regular file of
    more than [ceiling] bytes, reached without a transport failure, is
    refused with an error box and the editor keeps its text. *)
Definition open_file_refuses_above (ceiling : nat) : Prop :=
  forall (selection : list QModelIndex) (a : SCPClientApp) (w : world)
         (h : handle) (cl : client) (n : node) (name path : string),
    connected a = true -> sftp a = Some h ->
    fst (selected_remote selection (a, w)) = Return (name, path) ->
    clients w !! h = Some cl -> c_status cl = Live ->
    Transport.fs_of w cl !! resolve (Transport.home cl) path = Some n ->
    n_kind n = Regular ->
    nth_fault 0 w = None -> nth_fault 1 w = None ->
    (ceiling < length (n_data n))%nat ->
    exists e,
      shown (fst (snd (open_file selection (a, w))))
      = shown a ++ [Critical "Error" "Error opening file: " e]
      /\ text_editor (fst (snd (open_file selection (a, w)))) = text_editor a.

(** The session handles of the application object. *)
Definition handles (a : SCPClientApp) : option handle * option handle * option handle :=
  (ssh a, sftp a, scp a).

(** ** A small server to run on *)

Module Demo.

Definition bytes_of (s : string) : list byte := list_byte_of_string s.
Definition text_of (s : string) : list N := map Byte.to_N (bytes_of s).

Definition dir : node := mkNode Directory 493 [].
Definition reg (s : string) : node := mkNode Regular 420 (bytes_of s).

Definition fs : filesystem :=
  list_to_map
    [ ([], dir);
      (["home"], dir);
      (["home"; "u"], dir);
      (["home"; "u"; "docs"], dir);
      (["home"; "u"; "docs"; "a.txt"], reg "alpha");
      (["home"; "u"; "notes.txt"], reg "old");
      (["home"; "u"; "blob.bin"], mkNode Regular 420 [Byte.xff; Byte.xfe]) ].

Definition server (faults : list (option fault)) : world :=
  mkWorld [] {[ "h" := fs ]} ∅ faults [].

Definition start (faults : list (option fault)) : cfg := (init, server faults).

(** Connected to host [h] as user [u], with the listing of the home
    directory loaded. *)
Definition logged_in (faults : list (option fault)) : cfg :=
  snd (connect_ssh "h" "u" "secret" (start (None :: None :: None :: faults))).

Definition pick (r : Z) : list QModelIndex := [createIndex r 0].

(** The user has typed [text] into the editor. *)
Definition typing (text : string) (s : cfg) : cfg :=
  (set_text_editor (text_of text) (fst s), snd s).

Definition u : client := mkClient "h" "u" Live.

(** A session whose home directory also holds [big.txt], [size] bytes of
    the letter a. *)
Definition big_fs (size : nat) : filesystem :=
  <[ ["home"; "u"; "big.txt"] := mkNode Regular 420 (repeat Byte.x61 size) ]> fs.

Definition with_big (size : nat) : cfg :=
  (mkApp "." (Some 0%nat) (Some 0%nat) (Some 0%nat)
         (RemoteFileModel.init (Some ["big.txt"])) [] false "" [],
   mkWorld [u] {[ "h" := big_fs size ]} ∅ [] []).

End Demo.

(** ** Vocabulary of the further properties *)

(** A computation whose final state is always related to its initial state
    by [R]. *)
Definition preserves {S A : Type} (R : S -> S -> Prop) (m : M S A) : Prop :=
  forall s, R s (snd (m s)).

(** Attribute [f] of the application object has the same value in both
    states. *)
Definition unchanged {B : Type} (f : SCPClientApp -> B) (s s' : cfg) : Prop :=
  f (fst s') = f (fst s).

(** The session handles together with the current remote path. *)
Definition place (a : SCPClientApp) : (option handle * option handle * option handle) * string :=
  (handles a, remote_path a).

(** The editor pane: its text and whether it is shown. *)
Definition editor (a : SCPClientApp) : list N * bool :=
  (text_editor a, text_editor_visible a).

(** The text of the warning an operation shows when there is no
    connection. *)
Definition refusal (op : operation) : string :=
  match op with
  | Refresh => "You must be connected to a server to refresh the remote directory."
  | Upload _ => "You must be connected to a server to upload files."
  | Download _ _ => "You must be connected to a server to download files."
  | Open _ => "You must be connected to a server to open files."
  | Save _ => "You must be connected to a server to save files."
  | Delete _ => "You must be connected to a server to delete files."
  end.

(** The operation has an entry to work on: a local path for an upload, a
    remote entry whose name the model yields for the others. *)
Definition has_selection (op : operation) (s : cfg) : Prop :=
  match op with
  | Refresh => True
  | Upload sel => sel <> []
  | Download sel _ | Open sel | Save sel | Delete sel =>
      exists name path, fst (selected_remote sel s) = Return (name, path)
  end.

(** The selection an operation reads, when it reads the remote one. *)
Definition nothing_selected (op : operation) : Prop :=
  match op with
  | Refresh => False
  | Upload sel => sel = []
  | Download sel _ | Open sel | Save sel | Delete sel => sel = []
  end.

(** Whether [st_mode & 0o040000] is non-zero for a file of kind [k]. *)
Definition passes_directory_test (k : kind) : bool :=
  match k with
  | Directory | BlockDevice | Socket => true
  | Regular | CharDevice | Fifo => false
  end.

(** * Properties *)

Ltac unfold_monad :=
  unfold self, update, remote, attr, join in *;
  unfold try_except, try_except_IOError, bind, ret, throw, gets, modify,
    of_outcome in *.

Ltac unfold_ui :=
  unfold QMessageBox_information, QMessageBox_warning, QMessageBox_critical,
    showMessage, print, print_exn in *.

(** ** The codec and the model on examples *)

Example decode_two_and_three_bytes :
  Utf8.decode [Byte.xc3; Byte.xa9; Byte.xe2; Byte.x82; Byte.xac] = Some [233%N; 8364%N].
Proof. reflexivity. Qed.

Example decode_four_bytes :
  Utf8.decode [Byte.xf0; Byte.x9f; Byte.x98; Byte.x80] = Some [128512%N].
Proof. reflexivity. Qed.

Example decode_rejects_overlong : Utf8.decode [Byte.xc0; Byte.x80] = None.
Proof. reflexivity. Qed.

Example decode_rejects_surrogate : Utf8.decode [Byte.xed; Byte.xa0; Byte.x80] = None.
Proof. reflexivity. Qed.

Example decode_rejects_beyond_unicode :
  Utf8.decode [Byte.xf4; Byte.x90; Byte.x80; Byte.x80] = None.
Proof. reflexivity. Qed.

Example decode_rejects_truncated : Utf8.decode [Byte.xe2; Byte.x82] = None.
Proof. reflexivity. Qed.

Example encode_then_decode :
  (Utf8.encode [104%N; 233%N; 8364%N; 128512%N]) ≫= Utf8.decode
  = Some [104%N; 233%N; 8364%N; 128512%N].
Proof. reflexivity. Qed.

Example encode_rejects_surrogate : Utf8.encode [55296%N] = None.
Proof. reflexivity. Qed.

Example join_examples :
  os_path_join "." "docs" = "./docs"
  /\ os_path_join "./docs/" "a.txt" = "./docs/a.txt"
  /\ os_path_join "./docs" "/etc" = "/etc"
  /\ os_path_join "" "a" = "a".
Proof. repeat split. Qed.

Example resolve_examples :
  resolve ["home"; "u"] "./docs/a.txt" = ["home"; "u"; "docs"; "a.txt"]
  /\ resolve ["home"; "u"] "../v//x/." = ["home"; "v"; "x"]
  /\ resolve ["home"; "u"] "/etc/passwd" = ["etc"; "passwd"].
Proof. repeat split. Qed.

(** Saving the text [v2] over [notes.txt] and opening the file again shows
    exactly [v2]. *)
Example save_then_open :
  let s1 := snd (save_file (Demo.pick 0) (Demo.typing "v2" (Demo.logged_in []))) in
  let s2 := snd (open_file (Demo.pick 0) (Demo.typing "" s1)) in
  text_editor (fst s2) = Demo.text_of "v2" /\ text_editor_visible (fst s2) = true.
Proof. vm_compute. split; reflexivity. Qed.

(** ** The listing model *)

(** C8: the listing model is flat.  For every index the model reports the
    invalid (root) index as its parent, and every valid index has no rows
    below it. *)
Theorem remote_model_is_flat (m : RemoteFileModel.t) (idx : QModelIndex) :
  RemoteFileModel.parent m idx = invalid_index
  /\ isValid (RemoteFileModel.parent m idx) = false
  /\ (isValid idx = true -> RemoteFileModel.rowCount m idx = 0).
Proof.
  split; [reflexivity|]. split; [reflexivity|].
  intros Hv. unfold RemoteFileModel.rowCount. now rewrite Hv.
Qed.

Lemma remote_model_is_flat_witness :
  isValid (createIndex 1 0) = true
  /\ RemoteFileModel.rowCount (RemoteFileModel.init (Some ["a"; "b"])) (createIndex 1 0) = 0.
Proof.
  split; [reflexivity|].
  apply (remote_model_is_flat (RemoteFileModel.init (Some ["a"; "b"])) (createIndex 1 0)).
  reflexivity.
Defined.

(** ** The directory test *)

Lemma land_regular_dir_bit (n : node) :
  n_kind n = Regular -> Z.land (st_mode n) 16384 = 0.
Proof.
  intros Hk. unfold st_mode. rewrite Hk. simpl S_IFMT.
  apply Z.bits_inj'. intros i Hi.
  rewrite Z.land_spec, Z.lor_spec, Z.land_spec, Z.bits_0.
  destruct (Z.eq_dec i 14) as [->|Hne].
  { change (Z.testbit 4095 14) with false. change (Z.testbit 32768 14) with false.
    now rewrite andb_false_r. }
  change 16384 with (2 ^ 14).
  rewrite Z.pow2_bits_eqb by lia.
  destruct (Z.eqb_spec 14 i); [lia|]. apply andb_false_r.
Qed.

(** C7: the directory test does not tell a missing path from a path that is
    not a directory.  Whenever the stat call raises an IOError the test
    returns [False], and whenever the mode has bit 0o040000 clear it returns
    [0]; both are falsy. *)
Theorem is_directory_falsy (path : string) (s s' : cfg) :
  (forall msg, stat_st_mode path s = (Raise (IOError msg), s') ->
     is_directory path s = (Return (PyBool false), s')
     /\ truthy (PyBool false) = false)
  /\ (forall mode, stat_st_mode path s = (Return mode, s') ->
       Z.land mode 16384 = 0 ->
       is_directory path s = (Return (PyInt 0), s')
       /\ truthy (PyInt 0) = false).
Proof.
  split.
  - intros msg H. unfold is_directory, try_except_IOError, bind. now rewrite H.
  - intros mode H Hbit. unfold is_directory, try_except_IOError, bind, ret.
    now rewrite H, Hbit.
Qed.

Lemma is_directory_falsy_witness :
  fst (stat_st_mode "./missing" (Demo.logged_in [])) = Raise (IOError "No such file")
  /\ fst (stat_st_mode "./notes.txt" (Demo.logged_in [])) = Return 33188
  /\ Z.land 33188 16384 = 0
  /\ is_directory "./missing" (Demo.logged_in [])
    = (Return (PyBool false), snd (stat_st_mode "./missing" (Demo.logged_in [])))
  /\ is_directory "./notes.txt" (Demo.logged_in [])
    = (Return (PyInt 0), snd (stat_st_mode "./notes.txt" (Demo.logged_in []))).
Proof.
  split; [vm_compute; reflexivity|]. split; [vm_compute; reflexivity|].
  split; [reflexivity|]. split.
  - apply (proj1 (is_directory_falsy "./missing" (Demo.logged_in [])
             (snd (stat_st_mode "./missing" (Demo.logged_in [])))) "No such file").
    vm_compute. reflexivity.
  - apply (proj2 (is_directory_falsy "./notes.txt" (Demo.logged_in [])
             (snd (stat_st_mode "./notes.txt" (Demo.logged_in [])))) 33188).
    + vm_compute. reflexivity.
    + reflexivity.
Defined.

(** ** The connection precondition *)

(** C9: every remote operation checks the connection first.  When the ssh or
    the sftp handle is [None] the operation returns after showing one warning
    box: no transport call is made (the world, with its trace, is the same)
    and the application object differs only by that box, so the remote path,
    the remote model and the editor are unchanged. *)
Theorem disconnected_operation_only_warns
    (op : operation) (a : SCPClientApp) (w : world)
    (H : ssh a = None \/ sftp a = None) :
  exists text,
    run op (a, w) = (Return tt, (show (Warning "No Connection" text) a, w))
    /\ remote_path (show (Warning "No Connection" text) a) = remote_path a
    /\ remote_model (show (Warning "No Connection" text) a) = remote_model a
    /\ text_editor (show (Warning "No Connection" text) a) = text_editor a
    /\ text_editor_visible (show (Warning "No Connection" text) a) = text_editor_visible a.
Proof.
  assert (Hc : connected a = false).
  { unfold connected. destruct H as [-> | ->]; [reflexivity|]. now destruct (ssh a). }
  destruct op; simpl run;
    [ unfold load_remote_directory | unfold upload_file | unfold download_file
    | unfold open_file | unfold save_file | unfold delete_file ];
    unfold_ui; unfold_monad; simpl; rewrite Hc; simpl; eexists; repeat split.
Qed.

Lemma disconnected_operation_only_warns_witness :
  (ssh init = None \/ sftp init = None)
  /\ exists text,
    run (Delete (Demo.pick 0)) (init, Demo.server [])
    = (Return tt, (show (Warning "No Connection" text) init, Demo.server [])).
Proof.
  split; [left; reflexivity|].
  destruct (disconnected_operation_only_warns (Delete (Demo.pick 0)) init (Demo.server []))
    as [text [Hrun _]].
  - left. reflexivity.
  - exists text. exact Hrun.
Defined.

(** ** Navigation *)

Lemma remote_keeps_app {A} (m : M world A) (s : cfg) :
  fst (snd (remote m s)) = fst s.
Proof. unfold remote. now destruct (m (snd s)). Qed.

Lemma stat_st_mode_keeps_app (path : string) (s : cfg) :
  fst (snd (stat_st_mode path s)) = fst s.
Proof.
  unfold stat_st_mode. unfold_monad. simpl.
  destruct (sftp (fst s)) as [h|]; [|reflexivity].
  now destruct (Transport.stat h path (snd s)) as [[z|e] w'].
Qed.

Lemma is_directory_keeps_app (path : string) (s : cfg) :
  fst (snd (is_directory path s)) = fst s.
Proof.
  unfold is_directory, try_except_IOError, bind, ret.
  pose proof (stat_st_mode_keeps_app path s) as H.
  destruct (stat_st_mode path s) as [[z|e] s']; simpl in *; [exact H|].
  now destruct (is_IOError e).
Qed.

(** A refresh replaces the listing and the status line, and may show boxes;
    it leaves the path and the session handles alone. *)
Lemma load_remote_directory_frame (s : cfg) :
  handles (fst (snd (load_remote_directory s))) = handles (fst s)
  /\ remote_path (fst (snd (load_remote_directory s))) = remote_path (fst s).
Proof.
  destruct s as [a w]. unfold load_remote_directory, populate_remote_file_tree.
  unfold_ui. unfold_monad. simpl.
  destruct (connected a); simpl; [|now split].
  unfold handles.
  destruct (sftp a) as [h|] eqn:Hs; simpl; rewrite ?Hs; [|now split].
  destruct (Transport.listdir h (remote_path a) w) as [[files|e] w'];
    simpl; rewrite ?Hs; now split.
Qed.

(** The double-click handler, one case per way it can go. *)
Lemma remote_directory_navigate_eq (index : QModelIndex) (a : SCPClientApp) (w : world) :
  remote_directory_navigate index (a, w)
  = match RemoteFileModel.data (remote_model a) index DisplayRole with
    | Return (Some name) =>
        let new_path := os_path_join (remote_path a) name in
        match is_directory new_path (a, w) with
        | (Return d, s1) =>
            if truthy d
            then load_remote_directory (set_remote_path new_path (fst s1), snd s1)
            else (Return tt, (show (Printed (new_path +:+ " is not a directory.")) (fst s1),
                              snd s1))
        | (Raise e, s1) => (Raise e, s1)
        end
    | Return None =>
        (Raise (TypeError "expected str, bytes or os.PathLike object, not NoneType"), (a, w))
    | Raise e => (Raise e, (a, w))
    end.
Proof.
  unfold remote_directory_navigate, print. unfold_monad. cbn [fst snd].
  destruct (RemoteFileModel.data (remote_model a) index DisplayRole) as [[name|]|e];
    try reflexivity.
  destruct (is_directory (os_path_join (remote_path a) name) (a, w)) as [[d|e] s1];
    try reflexivity.
  now destruct (truthy d).
Qed.

(** C10: navigation changes the current remote path only for directories.
    Navigation never modifies the ssh, sftp and scp handles; and when the
    directory test of the joined path returns a value, the remote path
    afterwards is the joined path if that value is truthy and the previous
    path if it is falsy. *)
Theorem navigate_moves_only_into_directories
    (index : QModelIndex) (a : SCPClientApp) (w : world) :
  handles (fst (snd (remote_directory_navigate index (a, w)))) = handles a
  /\ forall name v s1,
       RemoteFileModel.data (remote_model a) index DisplayRole = Return (Some name) ->
       is_directory (os_path_join (remote_path a) name) (a, w) = (Return v, s1) ->
       remote_path (fst (snd (remote_directory_navigate index (a, w))))
       = if truthy v then os_path_join (remote_path a) name else remote_path a.
Proof.
  rewrite remote_directory_navigate_eq.
  destruct (RemoteFileModel.data (remote_model a) index DisplayRole) as [[name|]|e];
    cbn zeta; [| split; [reflexivity | intros ? ? ? Hn; discriminate Hn] ..].
  pose proof (is_directory_keeps_app (os_path_join (remote_path a) name) (a, w)) as Hd.
  destruct (is_directory (os_path_join (remote_path a) name) (a, w))
    as [[v|e] [a1 w1]] eqn:E; cbn [fst snd] in *; subst a1.
  - destruct (load_remote_directory_frame
                (set_remote_path (os_path_join (remote_path a) name) a, w1)) as [Hh Hp].
    cbn [fst snd] in Hh, Hp.
    split.
    + now destruct (truthy v).
    + intros name' v' s1 Hn Hdir. injection Hn as <-. rewrite E in Hdir.
      injection Hdir as <- <-. now destruct (truthy v).
  - split; [reflexivity|]. intros name' v' s1 Hn Hdir. injection Hn as <-.
    rewrite E in Hdir. discriminate Hdir.
Qed.

Lemma navigate_moves_only_into_directories_witness :
  RemoteFileModel.data (remote_model (fst (Demo.logged_in []))) (createIndex 1 0) DisplayRole
    = Return (Some "docs")
  /\ fst (is_directory "./docs" (Demo.logged_in [])) = Return (PyInt 16384)
  /\ remote_path (fst (snd (remote_directory_navigate (createIndex 1 0) (Demo.logged_in []))))
     = "./docs".
Proof.
  split; [vm_compute; reflexivity|]. split; [vm_compute; reflexivity|].
  apply (proj2 (navigate_moves_only_into_directories (createIndex 1 0)
                  (fst (Demo.logged_in [])) (snd (Demo.logged_in [])))
               "docs" (PyInt 16384)
               (snd (is_directory "./docs" (Demo.logged_in [])))).
  - vm_compute. reflexivity.
  - vm_compute. reflexivity.
Defined.

(** *** Transport requests, case by case *)

Lemma next_fault_eq (w : world) :
  Transport.next_fault w = (Return (nth_fault 0 w), set_faults tail w).
Proof.
  unfold Transport.next_fault, nth_fault. now destruct (faults w).
Qed.

Lemma nth_fault_served (i : nat) (c : call) (w : world) :
  nth_fault i (served c w) = nth_fault (S i) w.
Proof.
  unfold nth_fault, served. simpl. now destruct (faults w).
Qed.

Lemma request_eq {A} (h : handle) (c : call)
    (serve : client -> filesystem -> M world A) (w : world) (cl : client) :
  clients w !! h = Some cl -> c_status cl = Live ->
  Transport.request h c serve w
  = match nth_fault 0 w with
    | Some f => (Raise (f_exn f), served c w)
    | None => serve cl (Transport.fs_of w cl) (served c w)
    end.
Proof.
  intros Hcl Hlive.
  unfold Transport.request, Transport.log, Transport.live_client, bind, modify, gets.
  rewrite next_fault_eq. fold (served c w).
  change (nth_fault 0 (set_trace (fun t => t ++ [c]) w)) with (nth_fault 0 w).
  destruct (nth_fault 0 w); [reflexivity|].
  change (clients (served c w)) with (clients w). rewrite Hcl, Hlive.
  reflexivity.
Qed.

Lemma stat_eq (h : handle) (p : string) (w : world) (cl : client) :
  clients w !! h = Some cl -> c_status cl = Live ->
  Transport.stat h p w
  = match nth_fault 0 w with
    | Some f => (Raise (f_exn f), served (CallStat h p) w)
    | None =>
        match Transport.fs_of w cl !! resolve (Transport.home cl) p with
        | Some n => (Return (st_mode n), served (CallStat h p) w)
        | None => (Raise (IOError "No such file"), served (CallStat h p) w)
        end
    end.
Proof.
  intros Hcl Hlive. unfold Transport.stat. rewrite (request_eq _ _ _ _ cl Hcl Hlive).
  destruct (nth_fault 0 w); [reflexivity|].
  now destruct (Transport.fs_of w cl !! resolve (Transport.home cl) p).
Qed.

(** C2, as the code has it: navigating to a regular file raises nothing.
    For every selected entry whose joined path is a regular file on the
    server, the handler returns normally; all it does is one stat call and
    one printed line, so the remote path and the listing stay as they were
    and no directory is listed. *)
Theorem navigate_to_regular_file_only_prints
    (index : QModelIndex) (a : SCPClientApp) (w : world)
    (h : handle) (cl : client) (n : node) (name : string) :
  RemoteFileModel.data (remote_model a) index DisplayRole = Return (Some name) ->
  sftp a = Some h ->
  clients w !! h = Some cl -> c_status cl = Live ->
  nth_fault 0 w = None ->
  Transport.fs_of w cl
    !! resolve (Transport.home cl) (os_path_join (remote_path a) name) = Some n ->
  n_kind n = Regular ->
  remote_directory_navigate index (a, w)
  = (Return tt,
     (show (Printed (os_path_join (remote_path a) name +:+ " is not a directory.")) a,
      served (CallStat h (os_path_join (remote_path a) name)) w)).
Proof.
  intros Hname Hs Hcl Hlive Hcalm Hn Hreg.
  rewrite remote_directory_navigate_eq, Hname. cbn zeta.
  unfold is_directory, stat_st_mode. unfold_monad. cbn [fst snd].
  rewrite Hs, (stat_eq _ _ _ cl Hcl Hlive), Hcalm, Hn.
  rewrite (land_regular_dir_bit n Hreg). reflexivity.
Qed.

Lemma navigate_to_regular_file_only_prints_witness :
  remote_directory_navigate (createIndex 0 0) (Demo.logged_in [])
  = (Return tt,
     (show (Printed "./notes.txt is not a directory.") (fst (Demo.logged_in [])),
      served (CallStat 0%nat "./notes.txt") (snd (Demo.logged_in [])))).
Proof.
  apply (navigate_to_regular_file_only_prints (createIndex 0 0)
           (fst (Demo.logged_in [])) (snd (Demo.logged_in []))
           0%nat (mkClient "h" "u" Live) (Demo.reg "old") "notes.txt");
    vm_compute; reflexivity.
Defined.

(** C2 as stated fails: on the regular file [notes.txt] the handler raises
    no error at all; the only sign of the failure is a printed line. *)
Lemma navigate_to_regular_file_raises_nothing :
  content (snd (Demo.logged_in [])) (mkClient "h" "u" Live) ["home"; "u"; "notes.txt"]
    = Some (Demo.bytes_of "old")
  /\ fst (remote_directory_navigate (createIndex 0 0) (Demo.logged_in [])) = Return tt
  /\ raised (fst (remote_directory_navigate (createIndex 0 0) (Demo.logged_in []))) = false
  /\ shown (fst (snd (remote_directory_navigate (createIndex 0 0) (Demo.logged_in []))))
     = shown (fst (Demo.logged_in [])) ++ [Printed "./notes.txt is not a directory."].
Proof. vm_compute. repeat split. Qed.

(** ** Connecting *)

Lemma stays_open_refl (w : world) : stays_open w w.
Proof. now split. Qed.

Lemma stays_open_trans (w1 w2 w3 : world) :
  stays_open w1 w2 -> stays_open w2 w3 -> stays_open w1 w3.
Proof.
  intros [L1 C1] [L2 C2]. split; [auto|]. now rewrite C2.
Qed.

Section KeepsOpen.
Context {S : Type} (proj : S -> world).

Lemma keeps_open_ret {A} (a : A) : keeps_open proj (ret a).
Proof. intros s. apply stays_open_refl. Qed.

Lemma keeps_open_throw {A} (e : exn) : keeps_open proj (throw (A := A) e).
Proof. intros s. apply stays_open_refl. Qed.

Lemma keeps_open_gets {A} (f : S -> A) : keeps_open proj (gets f).
Proof. intros s. apply stays_open_refl. Qed.

Lemma keeps_open_of_outcome {A} (o : outcome A) : keeps_open proj (of_outcome o).
Proof. intros s. apply stays_open_refl. Qed.

Lemma keeps_open_bind {A B} (m : M S A) (k : A -> M S B) :
  keeps_open proj m -> (forall a, keeps_open proj (k a)) -> keeps_open proj (bind m k).
Proof.
  intros Hm Hk s. unfold bind. specialize (Hm s).
  destruct (m s) as [[a|e] s1]; cbn [snd] in *; [|exact Hm].
  eapply stays_open_trans; [exact Hm | apply Hk].
Qed.

Lemma keeps_open_try_except {A} (m : M S A) (k : exn -> M S A) :
  keeps_open proj m -> (forall e, keeps_open proj (k e)) ->
  keeps_open proj (try_except m k).
Proof.
  intros Hm Hk s. unfold try_except. specialize (Hm s).
  destruct (m s) as [[a|e] s1]; cbn [snd] in *; [exact Hm|].
  eapply stays_open_trans; [exact Hm | apply Hk].
Qed.
End KeepsOpen.

Lemma keeps_open_update (f : SCPClientApp -> SCPClientApp) :
  keeps_open snd (update f).
Proof. intros s. apply stays_open_refl. Qed.

Lemma keeps_open_remote {A} (m : M world A) :
  keeps_open id m -> keeps_open snd (remote m).
Proof.
  intros Hm s. unfold remote. specialize (Hm (snd s)). unfold id in Hm.
  now destruct (m (snd s)).
Qed.

Lemma filter_close_snoc (t : list call) (c : call) :
  is_close c = false ->
  filter (fun c => is_close c = true) (t ++ [c]) = filter (fun c => is_close c = true) t.
Proof.
  intros Hc. rewrite filter_app, filter_cons_False, filter_nil, app_nil_r; [done|].
  now rewrite Hc.
Qed.

Lemma keeps_open_log (c : call) : is_close c = false -> keeps_open id (Transport.log c).
Proof.
  intros Hc w. split; [auto|]. cbn. now apply filter_close_snoc.
Qed.

Lemma keeps_open_next_fault : keeps_open id Transport.next_fault.
Proof. intros w. now split. Qed.

Lemma keeps_open_request {A} (h : handle) (c : call)
    (serve : client -> filesystem -> M world A) :
  is_close c = false -> (forall cl fs, keeps_open id (serve cl fs)) ->
  keeps_open id (Transport.request h c serve).
Proof.
  intros Hc Hs. unfold Transport.request.
  apply keeps_open_bind; [now apply keeps_open_log|]. intros _.
  apply keeps_open_bind; [apply keeps_open_next_fault|]. intros [f|].
  - apply keeps_open_throw.
  - apply keeps_open_bind.
    + unfold Transport.live_client. apply keeps_open_bind; [apply keeps_open_gets|].
      intros [c0|]; [destruct (c_status c0)|];
        first [apply keeps_open_ret | apply keeps_open_throw].
    + intros cl. apply keeps_open_bind; [apply keeps_open_gets|]. intros fs. apply Hs.
Qed.

Lemma is_live_snoc (w : world) (c : client) (h : handle) :
  is_live w h = true -> is_live (set_clients (fun cs => cs ++ [c]) w) h = true.
Proof.
  unfold is_live. cbn. destruct (clients w !! h) as [c0|] eqn:E; [|discriminate].
  now rewrite (lookup_app_l_Some _ _ _ _ E).
Qed.

Lemma keeps_open_SSHClient : keeps_open id Transport.SSHClient.
Proof.
  intros w. split; [|reflexivity]. intros h. apply is_live_snoc.
Qed.

Lemma is_live_insert_live (w : world) (h h' : handle) (host user : string) :
  is_live w h' = true ->
  is_live (set_clients (fun cs => <[h := mkClient host user Live]> cs) w) h' = true.
Proof.
  unfold is_live. cbn. intros H.
  destruct (decide (h = h')) as [->|Hne].
  - destruct (clients w !! h') eqn:E; [|discriminate].
    rewrite list_lookup_insert_eq; [reflexivity|]. now apply lookup_lt_Some in E.
  - now rewrite list_lookup_insert_ne.
Qed.

Lemma keeps_open_connect (h : handle) (host username password : string) :
  keeps_open id (Transport.connect h host username password).
Proof.
  unfold Transport.connect.
  apply keeps_open_bind; [now apply keeps_open_log|]. intros _.
  apply keeps_open_bind; [apply keeps_open_next_fault|]. intros [f|].
  - apply keeps_open_throw.
  - intros w. split; [|reflexivity]. intros h'. apply is_live_insert_live.
Qed.

Lemma keeps_open_listdir (h : handle) (p : string) :
  keeps_open id (Transport.listdir h p).
Proof.
  apply keeps_open_request; [reflexivity|]. intros cl fs. cbn zeta.
  destruct (fs !! resolve (Transport.home cl) p) as [n|];
    [destruct (n_kind n)|]; (apply keeps_open_ret || apply keeps_open_throw).
Qed.

Lemma keeps_open_load_remote_directory : keeps_open snd load_remote_directory.
Proof.
  unfold load_remote_directory, populate_remote_file_tree. unfold_ui.
  apply keeps_open_bind; [apply keeps_open_gets|]. intros a.
  destruct (negb (connected a)); [apply keeps_open_update|].
  apply keeps_open_try_except.
  - apply keeps_open_bind.
    + unfold attr. destruct (sftp a); [|apply keeps_open_throw].
      apply keeps_open_remote, keeps_open_listdir.
    + intros files. apply keeps_open_bind; [apply keeps_open_update|]. intros _.
      apply keeps_open_bind; [apply keeps_open_gets|]. intros ?. apply keeps_open_update.
  - intros e. apply keeps_open_bind; [apply keeps_open_update|]. intros _.
    apply keeps_open_update.
Qed.

Lemma keeps_open__connect_ssh_thread (host username password : string) :
  keeps_open snd (_connect_ssh_thread host username password).
Proof.
  unfold _connect_ssh_thread.
  apply keeps_open_bind; [apply keeps_open_remote, keeps_open_SSHClient|]. intros c.
  apply keeps_open_bind; [apply keeps_open_update|]. intros _.
  apply keeps_open_bind; [apply keeps_open_remote, keeps_open_connect|]. intros _.
  apply keeps_open_bind.
  { apply keeps_open_remote, keeps_open_request; [reflexivity|].
    intros ? ?. apply keeps_open_ret. }
  intros s0. apply keeps_open_bind; [apply keeps_open_update|]. intros _.
  apply keeps_open_update.
Qed.

Lemma keeps_open_connect_ssh (host username password : string) :
  keeps_open snd (connect_ssh host username password).
Proof.
  unfold connect_ssh. unfold_ui.
  destruct (truth host && truth username && truth password); [|apply keeps_open_ret].
  apply keeps_open_try_except; [|intros e; apply keeps_open_update].
  apply keeps_open_bind; [apply keeps_open__connect_ssh_thread|]. intros _.
  apply keeps_open_bind; [apply keeps_open_update|]. intros _.
  apply keeps_open_bind; [apply keeps_open_update|]. intros _.
  apply keeps_open_load_remote_directory.
Qed.

Lemma stays_open_connect_all (calls : list (string * string * string)) (s : cfg) :
  stays_open (snd s) (snd (connect_all calls s)).
Proof.
  revert s. induction calls as [|[[host username] password] rest IH]; intros s.
  - apply stays_open_refl.
  - cbn [connect_all]. eapply stays_open_trans; [|apply IH].
    apply (keeps_open_connect_ssh host username password s).
Qed.

(** The connection thread, one case per place where it can fail. *)
Lemma _connect_ssh_thread_eq (host username password : string)
    (a : SCPClientApp) (w : world) :
  let n := length (clients w) in
  let w1 := served (CallConnect n host username)
                   (set_clients (fun cs => cs ++ [mkClient "" "" Fresh]) w) in
  let w2 := served (CallOpenSftp n)
                   (set_clients (fun cs => <[n := mkClient host username Live]> cs) w1) in
  _connect_ssh_thread host username password (a, w)
  = match nth_fault 0 w with
    | Some f => (Raise (f_exn f), (set_ssh (Some n) a, w1))
    | None =>
        match nth_fault 1 w with
        | Some f => (Raise (f_exn f), (set_ssh (Some n) a, w2))
        | None =>
            (Return tt, (set_scp (Some n) (set_sftp (Some n) (set_ssh (Some n) a)), w2))
        end
    end.
Proof.
  intros n w1 w2.
  unfold _connect_ssh_thread, Transport.SSHClient, Transport.connect, Transport.open_sftp,
    Transport.log.
  unfold_monad. cbn [fst snd].
  rewrite next_fault_eq. fold n. fold w1.
  change (nth_fault 0 _) with (nth_fault 0 w).
  destruct (nth_fault 0 w) as [f|]; [reflexivity|].
  assert (Hcl : clients (set_clients (fun cs => <[n := mkClient host username Live]> cs) w1)
                !! n = Some (mkClient host username Live)).
  { cbn. apply list_lookup_insert_eq. rewrite length_app. cbn. unfold n. lia. }
  rewrite (request_eq _ _ _ _ _ Hcl eq_refl). fold w2.
  change (nth_fault 0 (set_clients _ w1)) with (nth_fault 0 w1).
  unfold w1 at 1. rewrite nth_fault_served.
  change (nth_fault 1 (set_clients _ w)) with (nth_fault 1 w).
  now destruct (nth_fault 1 w).
Qed.

Lemma filter_seq_ext (P Q : nat -> Prop)
    `{!forall x, Decision (P x), !forall x, Decision (Q x)} (n : nat) :
  (forall h, (h < n)%nat -> (P h <-> Q h)) ->
  filter P (seq 0 n) = filter Q (seq 0 n).
Proof.
  induction n as [|n IH]; intros Hext; [reflexivity|].
  rewrite seq_S, !filter_app, IH by (intros h Hh; apply Hext; lia).
  f_equal. cbn [Nat.add].
  destruct (decide (P n)) as [Hp|Hp].
  - rewrite !filter_cons_True; [done| |done]. apply Hext; [lia|done].
  - rewrite !filter_cons_False; [done| |done]. intros Hq. apply Hp, Hext; [lia|done].
Qed.

Lemma live_transports_fresh_connect (w : world) (host username : string) (c1 c2 : call) :
  let n := length (clients w) in
  live_transports
    (served c2 (set_clients (fun cs => <[n := mkClient host username Live]> cs)
       (served c1 (set_clients (fun cs => cs ++ [mkClient "" "" Fresh]) w))))
  = live_transports w ++ [n].
Proof.
  intros n. unfold live_transports. cbn [clients served set_faults set_trace set_clients].
  rewrite length_insert, length_app. cbn [length]. rewrite Nat.add_1_r, seq_S, filter_app.
  fold n. cbn [Nat.add]. f_equal.
  - apply filter_seq_ext. intros h Hh. unfold is_live. cbn.
    rewrite list_lookup_insert_ne by (unfold n; lia).
    rewrite lookup_app_l by exact Hh. reflexivity.
  - rewrite filter_cons_True; [reflexivity|]. unfold is_live. cbn.
    rewrite list_lookup_insert_eq; [reflexivity|]. rewrite length_app. cbn. unfold n. lia.
Qed.

(** C1, as the code has it: connecting never tears a transport down.  Over
    every sequence of connect calls, each transport that was open stays open
    and no [close] is ever issued; a connect that succeeds opens one more
    transport next to the ones already open and points the ssh, sftp and scp
    handles of the application at it. *)
Theorem connect_never_tears_down
    (calls : list (string * string * string)) (s : cfg) :
  stays_open (snd s) (snd (connect_all calls s))
  /\ forall host username password,
       fst (_connect_ssh_thread host username password s) = Return tt ->
       let n := length (clients (snd s)) in
       let s' := snd (_connect_ssh_thread host username password s) in
       handles (fst s') = (Some n, Some n, Some n)
       /\ live_transports (snd s') = live_transports (snd s) ++ [n].
Proof.
  split; [apply stays_open_connect_all|].
  destruct s as [a w]. intros host username password. cbn [snd].
  rewrite _connect_ssh_thread_eq. cbn zeta.
  destruct (nth_fault 0 w); [discriminate|].
  destruct (nth_fault 1 w); [discriminate|]. intros _. cbn [fst snd].
  split; [reflexivity|]. apply live_transports_fresh_connect.
Qed.

Lemma connect_never_tears_down_witness :
  fst (_connect_ssh_thread "h" "u" "secret" (Demo.logged_in [])) = Return tt
  /\ handles (fst (snd (_connect_ssh_thread "h" "u" "secret" (Demo.logged_in []))))
     = (Some 1%nat, Some 1%nat, Some 1%nat)
  /\ live_transports (snd (snd (_connect_ssh_thread "h" "u" "secret" (Demo.logged_in []))))
     = [0%nat; 1%nat].
Proof.
  split; [vm_compute; reflexivity|].
  apply (proj2 (connect_never_tears_down [] (Demo.logged_in [])) "h" "u" "secret").
  vm_compute. reflexivity.
Defined.

(** C1 as stated fails: after two successful connects the transport of the
    first session is still open next to that of the second, and no [close]
    was ever issued. *)
Lemma two_connects_two_live_transports :
  let s := connect_all [("h", "u", "secret"); ("h", "u", "secret")] (Demo.start []) in
  live_transports (snd s) = [0%nat; 1%nat]
  /\ filter (fun c => is_close c = true) (trace (snd s)) = []
  /\ handles (fst s) = (Some 1%nat, Some 1%nat, Some 1%nat).
Proof. vm_compute. repeat split. Qed.

(** ** Disconnecting *)

Lemma close_eq (h : handle) (w : world) :
  Transport.close h w
  = match nth_fault 0 w with
    | Some f => (Raise (f_exn f), served (CallClose h) w)
    | None =>
        (Return tt,
         set_clients (fun cs =>
           match cs !! h with
           | Some c => match c_status c with
                       | Live => <[h := mkClient (c_host c) (c_user c) Closed]> cs
                       | _ => cs
                       end
           | None => cs
           end) (served (CallClose h) w))
    end.
Proof.
  unfold Transport.close, Transport.log, bind, modify. rewrite next_fault_eq.
  fold (served (CallClose h) w).
  change (nth_fault 0 _) with (nth_fault 0 w).
  now destruct (nth_fault 0 w).
Qed.

(** The Disconnect button, one case per way it can go. *)
Lemma disconnect_ssh_eq (a : SCPClientApp) (w : world) :
  disconnect_ssh (a, w)
  = match ssh a with
    | None =>
        (Return tt,
         (show (Warning "No Connection" "No active connection to disconnect.") a, w))
    | Some h =>
        match Transport.close h w with
        | (Return _, w') =>
            (Return tt,
             (show (Information "Disconnected" "Disconnected from the server.")
                (set_status_bar "Disconnected" (set_ssh None (set_sftp None a))), w'))
        | (Raise e, w') =>
            (Return tt,
             (show (Critical "Disconnection Failed" "Error disconnecting: " e) a, w'))
        end
    end.
Proof.
  unfold disconnect_ssh. unfold_ui. unfold_monad. cbn [fst snd].
  destruct (ssh a) as [h|]; [|reflexivity]. cbn [fst snd].
  now destruct (Transport.close h w) as [[[]|e] w'].
Qed.

(** C6, as the code has it: disconnecting never raises and is safe without a
    session, and it is idempotent once the session is closed.  With no
    session the call only shows a warning: the application differs by that
    box alone and the world is the same.  When [ssh.close()] returns, both
    handles become [None], the status line and an information box say so, and
    a second call only adds the warning, leaving session state and world as
    the first left them.  When [ssh.close()] raises, the error is shown in a
    box and nothing else of the application changes, so the handles stay as
    they were. *)
Theorem disconnect_ssh_safe (a : SCPClientApp) (w : world) :
  let s1 := snd (disconnect_ssh (a, w)) in
  let s2 := snd (disconnect_ssh s1) in
  let warned := show (Warning "No Connection" "No active connection to disconnect.") in
  fst (disconnect_ssh (a, w)) = Return tt
  /\ fst (disconnect_ssh s1) = Return tt
  /\ (ssh a = None ->
      s1 = (warned a, w) /\ session (fst s1) = session a /\ snd s1 = w)
  /\ (forall h, ssh a = Some h -> fst (Transport.close h w) = Return tt ->
       s1 = (show (Information "Disconnected" "Disconnected from the server.")
               (set_status_bar "Disconnected" (set_ssh None (set_sftp None a))),
             snd (Transport.close h w))
       /\ session (fst s1) = (None, None)
       /\ s2 = (warned (fst s1), snd s1)
       /\ session (fst s2) = session (fst s1) /\ snd s2 = snd s1)
  /\ (forall h e, ssh a = Some h -> fst (Transport.close h w) = Raise e ->
       s1 = (show (Critical "Disconnection Failed" "Error disconnecting: " e) a,
             snd (Transport.close h w))
       /\ handles (fst s1) = handles a).
Proof.
  cbn zeta.
  assert (Hret : forall s, fst (disconnect_ssh s) = Return tt).
  { intros [a0 w0]. rewrite disconnect_ssh_eq. destruct (ssh a0) as [h|]; [|reflexivity].
    now destruct (Transport.close h w0) as [[[]|e] w']. }
  split; [apply Hret|]. split; [apply Hret|].
  rewrite (disconnect_ssh_eq a w). split; [|split].
  - intros Hnone. rewrite Hnone. cbn [fst snd]. repeat split.
  - intros h Hh Hclose. rewrite Hh.
    destruct (Transport.close h w) as [[[]|e] w']; [|discriminate Hclose].
    cbn [fst snd]. rewrite disconnect_ssh_eq. cbn. now repeat split.
  - intros h e Hh Hclose. rewrite Hh.
    destruct (Transport.close h w) as [[[]|e'] w']; [discriminate Hclose|].
    cbn [fst] in Hclose. injection Hclose as ->. now split.
Qed.

Lemma disconnect_ssh_safe_witness :
  let a := fst (Demo.logged_in []) in
  let w := snd (Demo.logged_in []) in
  let s1 := snd (disconnect_ssh (a, w)) in
  let s2 := snd (disconnect_ssh s1) in
  ssh a = Some 0%nat
  /\ fst (Transport.close 0%nat w) = Return tt
  /\ s1 = (show (Information "Disconnected" "Disconnected from the server.")
             (set_status_bar "Disconnected" (set_ssh None (set_sftp None a))),
           snd (Transport.close 0%nat w))
  /\ session (fst s1) = (None, None)
  /\ s2 = (show (Warning "No Connection" "No active connection to disconnect.") (fst s1),
           snd s1)
  /\ session (fst s2) = session (fst s1) /\ snd s2 = snd s1.
Proof.
  cbn zeta. split; [vm_compute; reflexivity|]. split; [vm_compute; reflexivity|].
  apply (proj1 (proj2 (proj2 (proj2
           (disconnect_ssh_safe (fst (Demo.logged_in [])) (snd (Demo.logged_in []))))))
           0%nat).
  - vm_compute. reflexivity.
  - vm_compute. reflexivity.
Defined.

(** C6 as stated fails when [ssh.close()] raises: the first call keeps both
    handles, so it does not leave the session disconnected, and a second call
    whose [close] goes through ends in a different session state. *)
Lemma disconnect_twice_differs_from_once :
  let s0 := Demo.logged_in [Some (mkFault (IOError "Bad file descriptor") 0)] in
  let s1 := snd (disconnect_ssh s0) in
  let s2 := snd (disconnect_ssh s1) in
  session (fst s1) = (Some 0%nat, Some 0%nat)
  /\ session (fst s2) = (None, None)
  /\ session (fst s2) <> session (fst s1).
Proof. vm_compute. repeat split. discriminate. Qed.

(** ** Opening and saving a remote file *)

Lemma selected_remote_inv (selection : list QModelIndex) (a : SCPClientApp) (w : world)
    (name path : string) :
  fst (selected_remote selection (a, w)) = Return (name, path) ->
  selected_remote selection (a, w) = (Return (name, path), (a, w))
  /\ path = os_path_join (remote_path a) name.
Proof.
  unfold selected_remote. unfold_monad. cbn [fst snd].
  destruct (py_getitem selection 0) as [idx|e]; [|discriminate].
  destruct (RemoteFileModel.data (remote_model a) idx DisplayRole) as [[n|]|e];
    cbn; try discriminate.
  intros H. injection H as <- <-. now split.
Qed.

Lemma fs_of_put (w : world) (cl : client) (fs : filesystem) :
  Transport.fs_of (set_hosts (fun hs => <[c_host cl := fs]> hs) w) cl = fs.
Proof. unfold Transport.fs_of. cbn. now rewrite lookup_insert_eq. Qed.

Lemma file_w_eq (h : handle) (p : string) (w : world) (cl : client) (n : node) :
  clients w !! h = Some cl -> c_status cl = Live ->
  Transport.fs_of w cl !! resolve (Transport.home cl) p = Some n ->
  n_kind n = Regular ->
  Transport.file h p ModeW w
  = match nth_fault 0 w with
    | Some f => (Raise (f_exn f), served (CallFile h p ModeW) w)
    | None =>
        (Return (resolve (Transport.home cl) p),
         set_hosts (fun hs =>
           <[c_host cl := <[resolve (Transport.home cl) p := mkNode Regular (n_perm n) []]>
                            (Transport.fs_of w cl)]> hs)
           (served (CallFile h p ModeW) w))
    end.
Proof.
  intros Hcl Hlive Hn Hreg. unfold Transport.file.
  rewrite (request_eq _ _ _ _ cl Hcl Hlive).
  destruct (nth_fault 0 w); [reflexivity|].
  cbn zeta. rewrite Hn, Hreg. reflexivity.
Qed.

Lemma write_eq (h : handle) (f : list string) (bytes : list byte) (w : world)
    (cl : client) (n : node) :
  clients w !! h = Some cl -> c_status cl = Live ->
  Transport.fs_of w cl !! f = Some n ->
  Transport.write h f bytes w
  = let put b :=
      set_hosts (fun hs =>
        <[c_host cl := <[f := mkNode (n_kind n) (n_perm n) b]> (Transport.fs_of w cl)]> hs)
        (served (CallWrite h f bytes) w) in
    match nth_fault 0 w with
    | Some flt => (Raise (f_exn flt), put (take (f_progress flt) bytes))
    | None => (Return tt, put bytes)
    end.
Proof.
  intros Hcl Hlive Hn.
  unfold Transport.write, Transport.log, Transport.live_client, Transport.store,
    Transport.put_fs, bind, modify, gets, throw, ret.
  rewrite next_fault_eq. fold (served (CallWrite h f bytes) w).
  change (nth_fault 0 _) with (nth_fault 0 w).
  change (clients (served _ w)) with (clients w). rewrite Hcl, Hlive.
  assert (Hfs : Transport.fs_of (served (CallWrite h f bytes) w) cl = Transport.fs_of w cl)
    by reflexivity.
  destruct (nth_fault 0 w); cbn beta iota zeta; now rewrite !Hfs, Hn.
Qed.

Lemma file_r_eq (h : handle) (p : string) (w : world) (cl : client) (n : node) :
  clients w !! h = Some cl -> c_status cl = Live ->
  Transport.fs_of w cl !! resolve (Transport.home cl) p = Some n ->
  Transport.file h p ModeR w
  = match nth_fault 0 w with
    | Some f => (Raise (f_exn f), served (CallFile h p ModeR) w)
    | None => (Return (resolve (Transport.home cl) p), served (CallFile h p ModeR) w)
    end.
Proof.
  intros Hcl Hlive Hn. unfold Transport.file.
  rewrite (request_eq _ _ _ _ cl Hcl Hlive).
  destruct (nth_fault 0 w); [reflexivity|]. cbn zeta. now rewrite Hn.
Qed.

Lemma read_eq (h : handle) (f : list string) (w : world) (cl : client) (n : node) :
  clients w !! h = Some cl -> c_status cl = Live ->
  Transport.fs_of w cl !! f = Some n -> n_kind n = Regular ->
  Transport.read h f w
  = match nth_fault 0 w with
    | Some flt => (Raise (f_exn flt), served (CallRead h f) w)
    | None => (Return (n_data n), served (CallRead h f) w)
    end.
Proof.
  intros Hcl Hlive Hn Hreg. unfold Transport.read.
  rewrite (request_eq _ _ _ _ cl Hcl Hlive).
  destruct (nth_fault 0 w); [reflexivity|]. now rewrite Hn, Hreg.
Qed.

(** Saving, one case per place where it can fail. *)
Lemma save_file_eq (selection : list QModelIndex) (a : SCPClientApp) (w : world)
    (h : handle) (name path : string) :
  connected a = true -> sftp a = Some h ->
  fst (selected_remote selection (a, w)) = Return (name, path) ->
  save_file selection (a, w)
  = let failed e w' := (Return tt, (show (Critical "Error" "Error saving file: " e) a, w')) in
    match Transport.file h path ModeW w with
    | (Raise e, w1) => failed e w1
    | (Return f, w1) =>
        match Utf8.encode (text_editor a) with
        | None => failed UnicodeEncodeError w1
        | Some bytes =>
            match Transport.write h f bytes w1 with
            | (Raise e, w2) => failed e w2
            | (Return _, w2) =>
                (Return tt,
                 (show (Information "Save Success" ("Saved changes to " +:+ name)) a, w2))
            end
        end
    end.
Proof.
  intros Hc Hs Hsel. apply selected_remote_inv in Hsel as [Hsel _].
  unfold save_file, encode. unfold_ui.
  unfold bind at 1. unfold self at 1. unfold gets at 1. cbn [fst snd id]. rewrite Hc.
  unfold bind at 1. rewrite Hsel. cbn [fst snd]. rewrite Hs.
  unfold_monad. cbn [fst snd].
  destruct (Transport.file h path ModeW w) as [[f|e] w1]; cbn [fst snd]; [|reflexivity].
  destruct (Utf8.encode (text_editor a)) as [bytes|]; cbn [fst snd]; [|reflexivity].
  now destruct (Transport.write h f bytes w1) as [[[]|e] w2].
Qed.

(** C3, as the code has it: a save overwrites the file in place.  For every
    save of encodable text to an existing regular file the call returns
    normally and reports its result in a box; the file then holds the full
    new content if nothing failed, the prior content if opening it failed,
    and only the bytes written so far if the write failed after the open. *)
Theorem save_file_overwrites_in_place (selection : list QModelIndex) (a : SCPClientApp) (w : world)
    (h : handle) (cl : client) (n : node) (name path : string) (bytes : list byte) :
  connected a = true -> sftp a = Some h ->
  fst (selected_remote selection (a, w)) = Return (name, path) ->
  clients w !! h = Some cl -> c_status cl = Live ->
  Transport.fs_of w cl !! resolve (Transport.home cl) path = Some n ->
  n_kind n = Regular ->
  Utf8.encode (text_editor a) = Some bytes ->
  fst (save_file selection (a, w)) = Return tt
  /\ content (snd (snd (save_file selection (a, w)))) cl (resolve (Transport.home cl) path)
     = Some match nth_fault 0 w, nth_fault 1 w with
            | Some _, _ => n_data n
            | None, Some flt => take (f_progress flt) bytes
            | None, None => bytes
            end
  /\ shown (fst (snd (save_file selection (a, w))))
     = shown a ++
       [match nth_fault 0 w, nth_fault 1 w with
        | Some flt, _ => Critical "Error" "Error saving file: " (f_exn flt)
        | None, Some flt => Critical "Error" "Error saving file: " (f_exn flt)
        | None, None => Information "Save Success" ("Saved changes to " +:+ name)
        end].
Proof.
  intros Hc Hs Hsel Hcl Hlive Hn Hreg Henc.
  rewrite (save_file_eq _ _ _ h name path Hc Hs Hsel). cbn zeta.
  rewrite (file_w_eq _ _ _ cl n Hcl Hlive Hn Hreg).
  destruct (nth_fault 0 w) as [flt|].
  { repeat split. unfold content. cbn [fst snd].
    change (Transport.fs_of (served _ w) cl) with (Transport.fs_of w cl). now rewrite Hn. }
  rewrite Henc.
  set (f := resolve (Transport.home cl) path).
  set (w1 := set_hosts _ (served (CallFile h path ModeW) w)).
  assert (Hfs1 : Transport.fs_of w1 cl !! f = Some (mkNode Regular (n_perm n) [])).
  { unfold w1. rewrite fs_of_put. apply lookup_insert_eq. }
  rewrite (write_eq h f bytes w1 cl _ Hcl Hlive Hfs1). cbn zeta.
  change (nth_fault 0 w1) with (nth_fault 0 (served (CallFile h path ModeW) w)).
  rewrite nth_fault_served.
  destruct (nth_fault 1 w) as [flt|]; cbn [fst snd]; repeat split;
    unfold content; rewrite fs_of_put, lookup_insert_eq; reflexivity.
Qed.

Lemma save_file_overwrites_in_place_witness :
  let s := Demo.typing "v2" (Demo.logged_in []) in
  Utf8.encode (text_editor (fst s)) = Some (Demo.bytes_of "v2")
  /\ content (snd s) Demo.u ["home"; "u"; "notes.txt"] = Some (Demo.bytes_of "old")
  /\ content (snd (snd (save_file (Demo.pick 0) s))) Demo.u ["home"; "u"; "notes.txt"]
     = Some (Demo.bytes_of "v2").
Proof.
  cbn zeta. split; [vm_compute; reflexivity|]. split; [vm_compute; reflexivity|].
  apply (proj1 (proj2 (save_file_overwrites_in_place (Demo.pick 0)
           (fst (Demo.typing "v2" (Demo.logged_in [])))
           (snd (Demo.typing "v2" (Demo.logged_in [])))
           0%nat Demo.u (Demo.reg "old") "notes.txt" "./notes.txt" (Demo.bytes_of "v2")
           eq_refl eq_refl eq_refl eq_refl eq_refl eq_refl eq_refl eq_refl))).
Defined.

(** C3 as stated fails: when the transport breaks five bytes into the write,
    the file holds neither the prior content nor the new content, but a
    prefix of the new one. *)
Lemma save_file_leaves_partial_content :
  let lost := mkFault (IOError "Socket is closed") 5 in
  let s := Demo.typing "brand new text" (Demo.logged_in [None; Some lost]) in
  let s' := snd (save_file (Demo.pick 0) s) in
  content (snd s) Demo.u ["home"; "u"; "notes.txt"] = Some (Demo.bytes_of "old")
  /\ content (snd s') Demo.u ["home"; "u"; "notes.txt"] = Some (Demo.bytes_of "brand")
  /\ Demo.bytes_of "brand" <> Demo.bytes_of "old"
  /\ Demo.bytes_of "brand" <> Demo.bytes_of "brand new text".
Proof. vm_compute. repeat split; discriminate. Qed.

(** Opening, one case per place where it can fail. *)
Lemma open_file_eq (selection : list QModelIndex) (a : SCPClientApp) (w : world)
    (h : handle) (name path : string) :
  connected a = true -> sftp a = Some h ->
  fst (selected_remote selection (a, w)) = Return (name, path) ->
  open_file selection (a, w)
  = let failed e w' := (Return tt, (show (Critical "Error" "Error opening file: " e) a, w')) in
    match Transport.file h path ModeR w with
    | (Raise e, w1) => failed e w1
    | (Return f, w1) =>
        match Transport.read h f w1 with
        | (Raise e, w2) => failed e w2
        | (Return bytes, w2) =>
            match Utf8.decode bytes with
            | None => failed UnicodeDecodeError w2
            | Some text =>
                (Return tt,
                 (set_status_bar ("Opened file: " +:+ name)
                    (set_text_editor_visible true (set_text_editor text a)), w2))
            end
        end
    end.
Proof.
  intros Hc Hs Hsel. apply selected_remote_inv in Hsel as [Hsel _].
  unfold open_file, decode. unfold_ui.
  unfold bind at 1. unfold self at 1. unfold gets at 1. cbn [fst snd id]. rewrite Hc.
  unfold bind at 1. rewrite Hsel. cbn [fst snd]. rewrite Hs.
  unfold_monad. cbn [fst snd].
  destruct (Transport.file h path ModeR w) as [[f|e] w1]; cbn [fst snd]; [|reflexivity].
  destruct (Transport.read h f w1) as [[bytes|e] w2]; cbn [fst snd]; [|reflexivity].
  now destruct (Utf8.decode bytes).
Qed.

Lemma open_file_on_regular (selection : list QModelIndex) (a : SCPClientApp) (w : world)
    (h : handle) (cl : client) (n : node) (name path : string) :
  connected a = true -> sftp a = Some h ->
  fst (selected_remote selection (a, w)) = Return (name, path) ->
  clients w !! h = Some cl -> c_status cl = Live ->
  Transport.fs_of w cl !! resolve (Transport.home cl) path = Some n ->
  n_kind n = Regular ->
  nth_fault 0 w = None -> nth_fault 1 w = None ->
  open_file selection (a, w)
  = (Return tt,
     (match Utf8.decode (n_data n) with
      | None => show (Critical "Error" "Error opening file: " UnicodeDecodeError) a
      | Some text =>
          set_status_bar ("Opened file: " +:+ name)
            (set_text_editor_visible true (set_text_editor text a))
      end,
      served (CallRead h (resolve (Transport.home cl) path))
        (served (CallFile h path ModeR) w))).
Proof.
  intros Hc Hs Hsel Hcl Hlive Hn Hreg Hf0 Hf1.
  rewrite (open_file_eq _ _ _ h name path Hc Hs Hsel). cbn zeta.
  rewrite (file_r_eq _ _ _ cl n Hcl Hlive Hn), Hf0.
  rewrite (read_eq h _ (served (CallFile h path ModeR) w) cl n Hcl Hlive Hn Hreg).
  rewrite nth_fault_served, Hf1.
  now destruct (Utf8.decode (n_data n)).
Qed.

(** C4, as the code has it: bytes that are not UTF-8 are reported, and there
    is no size ceiling.  For every regular file reached without a transport
    failure, of whatever size: if its bytes do not decode, an error box names
    the decoding error and the editor keeps its text and visibility; if they
    decode, the editor shows the whole decoded text and no box appears. *)
Theorem open_file_decodes_or_reports (selection : list QModelIndex) (a : SCPClientApp)
    (w : world) (h : handle) (cl : client) (n : node) (name path : string) :
  connected a = true -> sftp a = Some h ->
  fst (selected_remote selection (a, w)) = Return (name, path) ->
  clients w !! h = Some cl -> c_status cl = Live ->
  Transport.fs_of w cl !! resolve (Transport.home cl) path = Some n ->
  n_kind n = Regular ->
  nth_fault 0 w = None -> nth_fault 1 w = None ->
  let a' := fst (snd (open_file selection (a, w))) in
  fst (open_file selection (a, w)) = Return tt
  /\ (Utf8.decode (n_data n) = None ->
      shown a' = shown a ++ [Critical "Error" "Error opening file: " UnicodeDecodeError]
      /\ text_editor a' = text_editor a
      /\ text_editor_visible a' = text_editor_visible a)
  /\ (forall text, Utf8.decode (n_data n) = Some text ->
      text_editor a' = text /\ text_editor_visible a' = true /\ shown a' = shown a).
Proof.
  intros Hc Hs Hsel Hcl Hlive Hn Hreg Hf0 Hf1.
  rewrite (open_file_on_regular _ _ _ h cl n name path Hc Hs Hsel Hcl Hlive Hn Hreg Hf0 Hf1).
  cbn [fst snd]. split; [reflexivity|]. split.
  - intros Hd. rewrite Hd. now repeat split.
  - intros text Hd. rewrite Hd. now repeat split.
Qed.

Lemma open_file_decodes_or_reports_witness :
  Utf8.decode [Byte.xff; Byte.xfe] = None
  /\ shown (fst (snd (open_file (Demo.pick 2) (Demo.logged_in []))))
     = shown (fst (Demo.logged_in []))
       ++ [Critical "Error" "Error opening file: " UnicodeDecodeError]
  /\ text_editor (fst (snd (open_file (Demo.pick 2) (Demo.logged_in [])))) = [].
Proof.
  split; [reflexivity|].
  destruct (open_file_decodes_or_reports (Demo.pick 2)
              (fst (Demo.logged_in [])) (snd (Demo.logged_in []))
              0%nat Demo.u (mkNode Regular 420 [Byte.xff; Byte.xfe]) "blob.bin" "./blob.bin"
              eq_refl eq_refl eq_refl eq_refl eq_refl eq_refl eq_refl eq_refl eq_refl)
    as [_ [Hbad _]].
  destruct (Hbad eq_refl) as [Hshown [Htext _]]. split; [exact Hshown | exact Htext].
Defined.

Lemma decode_repeat_a (size : nat) :
  Utf8.decode (repeat Byte.x61 size) = Some (repeat 97%N size).
Proof.
  induction size as [|size IH]; [reflexivity|].
  change (Utf8.decode (repeat Byte.x61 (S size)))
    with (cons 97%N <$> Utf8.decode (repeat Byte.x61 size)).
  now rewrite IH.
Qed.

(** C4 as stated fails in its second half: no size is refused.  Whatever
    ceiling is proposed, a file one byte longer is read whole into the
    editor without any error box. *)
Lemma open_file_has_no_size_ceiling :
  ~ exists ceiling : nat, open_file_refuses_above ceiling.
Proof.
  intros [ceiling H].
  assert (Hfs : Transport.fs_of (snd (Demo.with_big (S ceiling))) Demo.u
                !! resolve (Transport.home Demo.u) "./big.txt"
                = Some (mkNode Regular 420 (repeat Byte.x61 (S ceiling)))).
  { unfold Transport.fs_of. cbn [snd Demo.with_big hosts Demo.u c_host].
    rewrite lookup_singleton_eq. cbn [default].
    change (resolve (Transport.home Demo.u) "./big.txt") with ["home"; "u"; "big.txt"].
    apply lookup_insert_eq. }
  destruct (H (Demo.pick 0) (fst (Demo.with_big (S ceiling))) (snd (Demo.with_big (S ceiling)))
              0%nat Demo.u _ "big.txt" "./big.txt"
              eq_refl eq_refl eq_refl eq_refl eq_refl Hfs eq_refl eq_refl eq_refl)
    as [e [Hshown _]].
  { cbn [n_data]. rewrite repeat_length. lia. }
  rewrite (open_file_on_regular (Demo.pick 0) (fst (Demo.with_big (S ceiling)))
             (snd (Demo.with_big (S ceiling))) 0%nat Demo.u _ "big.txt" "./big.txt"
             eq_refl eq_refl eq_refl eq_refl eq_refl Hfs eq_refl eq_refl eq_refl) in Hshown.
  cbn [n_data] in Hshown. rewrite decode_repeat_a in Hshown. cbn in Hshown.
  discriminate Hshown.
Qed.

(** ** Paths and listings *)

Lemma split_sep_nonempty (s : string) : split_sep s <> [].
Proof.
  destruct s as [|c r]; [discriminate|]. cbn.
  destruct (Ascii.eqb c sep); [discriminate|]. now destruct (split_sep r).
Qed.

Lemma split_sep_app (a b : string) :
  split_sep (a +:+ String sep b) = split_sep a ++ split_sep b.
Proof.
  induction a as [|c a IH].
  - reflexivity.
  - change (String c a +:+ String sep b) with (String c (a +:+ String sep b)).
    cbn [split_sep]. rewrite IH.
    destruct (Ascii.eqb c sep); [reflexivity|].
    pose proof (split_sep_nonempty a) as Hne.
    now destruct (split_sep a).
Qed.

Lemma split_sep_name (n : string) : has_sep n = false -> split_sep n = [n].
Proof.
  induction n as [|c n IH]; [reflexivity|]. cbn [has_sep split_sep].
  destruct (Ascii.eqb c sep); [discriminate|]. cbn. intros H. now rewrite IH.
Qed.

Lemma endswith_sep_inv (d : string) :
  endswith_sep d = true -> exists d', d = d' +:+ String sep EmptyString.
Proof.
  induction d as [|c d IH]; [discriminate|]. cbn [endswith_sep].
  destruct d as [|c' d].
  - intros H. apply Ascii.eqb_eq in H as ->. now exists EmptyString.
  - intros H. destruct (IH H) as [d' Hd']. exists (String c d'). cbn. now rewrite Hd'.
Qed.

Lemma append_assoc (a b c : string) : (a +:+ b) +:+ c = a +:+ (b +:+ c).
Proof.
  induction a as [|x a IH]; [reflexivity|].
  change (String x (a +:+ b) +:+ c = String x (a +:+ b +:+ c)).
  change (String x ((a +:+ b) +:+ c) = String x (a +:+ b +:+ c)). now rewrite IH.
Qed.

Lemma startswith_sep_app (a b : string) :
  is_empty a = false -> startswith_sep (a +:+ b) = startswith_sep a.
Proof. now destruct a. Qed.

Lemma valid_name_inv (n : string) :
  valid_name n = true ->
  is_empty n = false /\ has_sep n = false
  /\ String.eqb n "." = false /\ String.eqb n ".." = false.
Proof.
  unfold valid_name. intros H.
  repeat (apply andb_prop in H as [H ?]).
  repeat split; now apply negb_true_iff.
Qed.

Lemma walk_name (dir : list string) (n : string) :
  valid_name n = true -> walk dir n = dir ++ [n].
Proof.
  intros H. apply valid_name_inv in H as (He & _ & Hd & Hdd).
  unfold walk. now rewrite He, Hd, Hdd.
Qed.

(** Joining a listed name to a directory path names the entry of that name
    in that directory. *)
Lemma resolve_join (cwd : list string) (d n : string) :
  valid_name n = true ->
  resolve cwd (os_path_join d n) = resolve cwd d ++ [n].
Proof.
  intros Hv. pose proof (valid_name_inv n Hv) as (He & Hs & _ & _).
  assert (Hstart : startswith_sep n = false).
  { destruct n as [|c n]; [reflexivity|]. cbn in Hs |- *.
    now destruct (Ascii.eqb c sep). }
  unfold os_path_join, resolve. rewrite Hstart.
  destruct (is_empty d) eqn:Hd.
  - destruct d; [|discriminate]. cbn [orb].
    change (EmptyString +:+ n) with n.
    rewrite Hstart, (split_sep_name n Hs). cbn. now apply walk_name.
  - cbn [orb]. destruct (endswith_sep d) eqn:Hend.
    + destruct (endswith_sep_inv d Hend) as [d' ->].
      rewrite append_assoc.
      change (String sep EmptyString +:+ n) with (String sep n).
      rewrite !split_sep_app, (split_sep_name n Hs).
      change (split_sep EmptyString) with [EmptyString].
      assert (Hsame : startswith_sep (d' +:+ String sep n)
                      = startswith_sep (d' +:+ String sep EmptyString)).
      { now destruct d'. }
      rewrite Hsame, !fold_left_app. cbn [fold_left].
      rewrite (walk_name _ n Hv). reflexivity.
    + rewrite split_sep_app, (split_sep_name n Hs), (startswith_sep_app _ _ Hd).
      rewrite fold_left_app. cbn [fold_left]. now apply walk_name.
Qed.

Lemma split_last_snoc {A} (q : list A) (x : A) : split_last (q ++ [x]) = Some (q, x).
Proof.
  induction q as [|y q IH]; [reflexivity|].
  cbn [app split_last]. rewrite IH. now destruct (q ++ [x]) eqn:E; [destruct q|].
Qed.

Lemma split_last_inv {A} (p q : list A) (x : A) :
  split_last p = Some (q, x) -> p = q ++ [x].
Proof.
  revert q. induction p as [|y p IH]; intros q; [discriminate|].
  cbn [split_last]. destruct p as [|z p].
  - intros H. now injection H as <- <-.
  - destruct (split_last (z :: p)) as [[q' x']|]; [|discriminate].
    intros H. injection H as <- <-. cbn. now rewrite (IH q' eq_refl).
Qed.

(** A name is listed in a directory exactly when the file system has an
    entry of that name there. *)
Lemma elem_of_listdir_names (fs : filesystem) (d : list string) (n : string) :
  n ∈ listdir_names fs d <-> is_Some (fs !! (d ++ [n])).
Proof.
  unfold listdir_names. rewrite list_elem_of_omap. split.
  - intros [[p nd] [Hin Hc]]. apply elem_of_map_to_list in Hin.
    unfold child_of in Hc. cbn [fst] in Hc.
    destruct (split_last p) as [[q x]|] eqn:E; [|discriminate].
    destruct (decide (q = d)) as [->|]; [|discriminate].
    injection Hc as ->. apply split_last_inv in E as ->. now exists nd.
  - intros [nd Hnd]. exists (d ++ [n], nd). split; [now apply elem_of_map_to_list|].
    unfold child_of. cbn [fst]. rewrite split_last_snoc.
    now rewrite decide_True.
Qed.

(** ** Deleting *)

Lemma request_world_raise {A} (h : handle) (c : call)
    (serve : client -> filesystem -> M world A) (w : world) :
  (forall cl, clients w !! h = Some cl -> c_status cl = Live -> nth_fault 0 w = None ->
     snd (serve cl (Transport.fs_of w cl) (served c w)) = served c w) ->
  snd (Transport.request h c serve w) = served c w.
Proof.
  intros Hserve.
  destruct (clients w !! h) as [cl|] eqn:Hcl.
  - destruct (c_status cl) eqn:Hlive.
    2: { rewrite (request_eq _ _ _ _ cl Hcl Hlive).
         destruct (nth_fault 0 w) eqn:Hf; [reflexivity|]. now apply Hserve. }
    all: unfold Transport.request, Transport.log, Transport.live_client, bind, modify,
           gets, throw; rewrite next_fault_eq; fold (served c w);
         change (nth_fault 0 _) with (nth_fault 0 w);
         destruct (nth_fault 0 w); [reflexivity|];
         change (clients (served c w)) with (clients w); now rewrite Hcl, Hlive.
  - unfold Transport.request, Transport.log, Transport.live_client, bind, modify,
      gets, throw. rewrite next_fault_eq. fold (served c w).
    change (nth_fault 0 _) with (nth_fault 0 w).
    destruct (nth_fault 0 w); [reflexivity|].
    change (clients (served c w)) with (clients w). now rewrite Hcl.
Qed.

(** A listing request changes nothing on the server: it is logged and takes
    its entry of the schedule. *)
Lemma listdir_world (h : handle) (p : string) (w : world) :
  snd (Transport.listdir h p w) = served (CallListdir h p) w.
Proof.
  apply request_world_raise. intros cl _ _ _. cbn zeta.
  destruct (Transport.fs_of w cl !! resolve (Transport.home cl) p) as [n|];
    [now destruct (n_kind n)|reflexivity].
Qed.

Lemma request_inv {A} (h : handle) (c : call)
    (serve : client -> filesystem -> M world A) (w : world) (r : A) (w' : world) :
  Transport.request h c serve w = (Return r, w') ->
  exists cl, clients w !! h = Some cl /\ c_status cl = Live
             /\ serve cl (Transport.fs_of w cl) (served c w) = (Return r, w').
Proof.
  intros H.
  destruct (clients w !! h) as [cl|] eqn:Hcl.
  - destruct (c_status cl) eqn:Hlive.
    2: { exists cl. rewrite (request_eq _ _ _ _ cl Hcl Hlive) in H.
         destruct (nth_fault 0 w); [discriminate|]. now repeat split. }
    all: exfalso; revert H;
         unfold Transport.request, Transport.log, Transport.live_client, bind, modify,
           gets, throw; rewrite next_fault_eq; fold (served c w);
         change (nth_fault 0 _) with (nth_fault 0 w);
         destruct (nth_fault 0 w); [discriminate|];
         change (clients (served c w)) with (clients w); rewrite Hcl, Hlive; discriminate.
  - exfalso. revert H.
    unfold Transport.request, Transport.log, Transport.live_client, bind, modify,
      gets, throw. rewrite next_fault_eq. fold (served c w).
    change (nth_fault 0 _) with (nth_fault 0 w).
    destruct (nth_fault 0 w); [discriminate|].
    change (clients (served c w)) with (clients w). rewrite Hcl. discriminate.
Qed.

(** A remove that returns has deleted the entry the path resolves to. *)
Lemma remove_inv (h : handle) (p : string) (w w1 : world) :
  Transport.remove h p w = (Return tt, w1) ->
  exists cl, clients w !! h = Some cl /\ c_status cl = Live
    /\ w1 = set_hosts (fun hs =>
               <[c_host cl := delete (resolve (Transport.home cl) p) (Transport.fs_of w cl)]> hs)
             (served (CallRemove h p) w).
Proof.
  intros H. apply request_inv in H as (cl & Hcl & Hlive & H). exists cl.
  split; [exact Hcl|]. split; [exact Hlive|]. cbn zeta in H.
  destruct (Transport.fs_of w cl !! resolve (Transport.home cl) p) as [n|];
    [|discriminate].
  destruct (n_kind n); try discriminate; now injection H as <-.
Qed.

(** A listing that returns has listed the directory the path resolves to. *)
Lemma listdir_inv (h : handle) (p : string) (w w' : world) (files : list string) :
  Transport.listdir h p w = (Return files, w') ->
  exists cl, clients w !! h = Some cl
    /\ files = listdir_names (Transport.fs_of w cl) (resolve (Transport.home cl) p).
Proof.
  intros H. apply request_inv in H as (cl & Hcl & _ & H). exists cl.
  split; [exact Hcl|]. cbn zeta in H.
  destruct (Transport.fs_of w cl !! resolve (Transport.home cl) p) as [n|];
    [|discriminate].
  destruct (n_kind n); try discriminate. now injection H as <- _.
Qed.

(** A refresh on a connected application, by the outcome of the listing. *)
Lemma load_remote_directory_eq (a : SCPClientApp) (w : world) (h : handle) :
  connected a = true -> sftp a = Some h ->
  load_remote_directory (a, w)
  = match Transport.listdir h (remote_path a) w with
    | (Return files, w') =>
        (Return tt,
         (set_status_bar ("Loaded remote directory: " +:+ remote_path a)
            (set_remote_model (RemoteFileModel.init (Some files)) a), w'))
    | (Raise e, w') =>
        (Return tt,
         (show (PrintedExn "Error loading remote directory: " e)
            (show (Critical "Error" "Failed to load remote directory: " e) a), w'))
    end.
Proof.
  intros Hc Hs. unfold load_remote_directory, populate_remote_file_tree. unfold_ui.
  unfold bind at 1. unfold self at 1. unfold gets at 1. cbn [fst snd id].
  rewrite Hc, Hs. unfold_monad. cbn [fst snd negb].
  now destruct (Transport.listdir h (remote_path a) w) as [[files|e] w'].
Qed.

(** Deleting, by the outcome of the remove. *)
Lemma delete_file_eq (selection : list QModelIndex) (a : SCPClientApp) (w : world)
    (h : handle) (name path : string) :
  connected a = true -> sftp a = Some h ->
  fst (selected_remote selection (a, w)) = Return (name, path) ->
  delete_file selection (a, w)
  = match Transport.remove h path w with
    | (Raise e, w1) =>
        (Return tt, (show (Critical "Error" "Error deleting file: " e) a, w1))
    | (Return _, w1) =>
        (Return tt,
         (show (Information "Delete Success" ("Deleted " +:+ name))
            (fst (snd (load_remote_directory (a, w1)))),
          snd (snd (load_remote_directory (a, w1)))))
    end.
Proof.
  intros Hc Hs Hsel. apply selected_remote_inv in Hsel as [Hsel _].
  unfold delete_file. unfold_ui.
  unfold bind at 1. unfold self at 1. unfold gets at 1. cbn [fst snd id]. rewrite Hc.
  unfold bind at 1. rewrite Hsel. cbn [fst snd]. rewrite Hs.
  unfold try_except, bind, attr, remote, update, modify. cbn [fst snd].
  destruct (Transport.remove h path w) as [[[]|e] w1]; cbn [fst snd]; [|reflexivity].
  rewrite (load_remote_directory_eq a w1 h Hc Hs).
  now destruct (Transport.listdir h (remote_path a) w1) as [[files|e] w'].
Qed.

Lemma init_data (files : list string) :
  RemoteFileModel._data (RemoteFileModel.init (Some files)) = files.
Proof. now destruct files. Qed.

(** C5, as the code has it: a successful delete is followed by a refresh,
    and the listing shown afterwards lacks the deleted entry when that
    refresh succeeds.  Whenever the remove of the selected entry returns,
    [delete_file] goes on to list the current directory (the remove and that
    listing are the two transport calls it makes) and then shows "Delete
    Success".  When the listing returns, the remote model is replaced by its
    names, and the deleted name is not among them.  When the listing fails,
    the failure is shown in an error box and printed, and the old model stays
    in place.  Either way, every listing of the current directory taken from
    the server as the delete left it is without the deleted name. *)
Theorem delete_file_refreshes_listing
    (selection : list QModelIndex) (a : SCPClientApp) (w : world)
    (h : handle) (name path : string) (w1 : world) :
  connected a = true -> sftp a = Some h ->
  fst (selected_remote selection (a, w)) = Return (name, path) ->
  valid_name name = true ->
  Transport.remove h path w = (Return tt, w1) ->
  let s' := snd (delete_file selection (a, w)) in
  let deleted := show (Information "Delete Success" ("Deleted " +:+ name)) in
  fst (delete_file selection (a, w)) = Return tt
  /\ trace (snd s') = trace w ++ [CallRemove h path; CallListdir h (remote_path a)]
  /\ (forall files w2,
        Transport.listdir h (remote_path a) w1 = (Return files, w2) ->
        s' = (deleted (set_status_bar ("Loaded remote directory: " +:+ remote_path a)
                         (set_remote_model (RemoteFileModel.init (Some files)) a)), w2)
        /\ RemoteFileModel._data (remote_model (fst s')) = files
        /\ (name ∉ RemoteFileModel._data (remote_model (fst s'))))
  /\ (forall e w2,
        Transport.listdir h (remote_path a) w1 = (Raise e, w2) ->
        s' = (deleted (show (PrintedExn "Error loading remote directory: " e)
                         (show (Critical "Error" "Failed to load remote directory: " e) a)),
              w2)
        /\ remote_model (fst s') = remote_model a)
  /\ (forall w2 files,
        hosts w2 = hosts (snd s') -> clients w2 = clients (snd s') ->
        fst (Transport.listdir h (remote_path a) w2) = Return files ->
        name ∉ files).
Proof.
  intros Hc Hs Hsel Hvalid Hrm. cbn zeta.
  rewrite (delete_file_eq _ _ _ h name path Hc Hs Hsel), Hrm. cbn [fst snd].
  destruct (selected_remote_inv _ _ _ _ _ Hsel) as [_ ->].
  apply remove_inv in Hrm as (cl & Hcl & Hlive & ->).
  set (d := resolve (Transport.home cl) (remote_path a)).
  rewrite (resolve_join _ _ _ Hvalid). fold d.
  set (w1 := set_hosts _ (served _ w)).
  assert (Hgone : forall w2 files,
            hosts w2 = hosts w1 -> clients w2 = clients w1 ->
            fst (Transport.listdir h (remote_path a) w2) = Return files ->
            name ∉ files).
  { intros w2 files2 Hhosts Hclients Hl.
    destruct (Transport.listdir h (remote_path a) w2) as [[files3|e3] w3] eqn:E2;
      cbn [fst] in Hl; [injection Hl as ->|discriminate Hl].
    apply listdir_inv in E2 as (cl2 & Hcl2 & ->).
    rewrite Hclients in Hcl2. cbn in Hcl2. rewrite Hcl in Hcl2.
    injection Hcl2 as <-. fold d.
    rewrite elem_of_listdir_names. unfold Transport.fs_of. rewrite Hhosts. cbn.
    rewrite lookup_insert_eq. cbn. rewrite lookup_delete_eq.
    intros [x Hx]. discriminate Hx. }
  rewrite (load_remote_directory_eq a w1 h Hc Hs).
  pose proof (listdir_world h (remote_path a) w1) as Hw.
  destruct (Transport.listdir h (remote_path a) w1) as [[files|e] w'] eqn:E;
    cbn [fst snd] in Hw |- *; subst w'.
  - split; [reflexivity|]. split; [cbn; now rewrite <- app_assoc|]. split; [|split].
    + intros files' w2 Hf. injection Hf as <- <-.
      split; [reflexivity|]. cbn [fst remote_model show set_status_bar set_remote_model].
      rewrite init_data. split; [reflexivity|].
      apply (Hgone w1 files eq_refl eq_refl). now rewrite E.
    + intros e w2 Hf. discriminate Hf.
    + apply Hgone.
  - split; [reflexivity|]. split; [cbn; now rewrite <- app_assoc|]. split; [|split].
    + intros files' w2 Hf. discriminate Hf.
    + intros e' w2 Hf. injection Hf as <- <-. now split.
    + apply Hgone.
Qed.

Lemma delete_file_refreshes_listing_witness :
  let a := fst (Demo.logged_in []) in
  let w := snd (Demo.logged_in []) in
  let s' := snd (delete_file (Demo.pick 0) (a, w)) in
  fst (Transport.remove 0%nat "./notes.txt" w) = Return tt
  /\ RemoteFileModel._data (remote_model a) = ["notes.txt"; "docs"; "blob.bin"]
  /\ RemoteFileModel._data (remote_model (fst s')) = ["docs"; "blob.bin"]
  /\ ("notes.txt" ∉ RemoteFileModel._data (remote_model (fst s')))
  /\ trace (snd s') = trace w ++ [CallRemove 0%nat "./notes.txt"; CallListdir 0%nat "."].
Proof.
  cbn zeta. split; [vm_compute; reflexivity|]. split; [vm_compute; reflexivity|].
  destruct (delete_file_refreshes_listing (Demo.pick 0)
              (fst (Demo.logged_in [])) (snd (Demo.logged_in []))
              0%nat "notes.txt" "./notes.txt"
              (snd (Transport.remove 0%nat "./notes.txt" (snd (Demo.logged_in []))))
              eq_refl eq_refl eq_refl eq_refl)
    as (_ & Htrace & Hmodel & _).
  - vm_compute. reflexivity.
  - destruct (Hmodel ["docs"; "blob.bin"]
                (snd (Transport.listdir 0%nat "."
                   (snd (Transport.remove 0%nat "./notes.txt" (snd (Demo.logged_in []))))))) 
      as (_ & Hdata & Hnot).
    + vm_compute. reflexivity.
    + split; [exact Hdata|]. split; [exact Hnot | exact Htrace].
Defined.

(** C5 as stated fails when the refresh itself fails: the remove has
    returned and the entry is gone from the server, "Delete Success" is shown,
    but the listing call raised, so the model still lists the deleted
    entry. *)
Lemma delete_with_failed_refresh_keeps_entry :
  let lost := mkFault (IOError "Socket is closed") 0 in
  let s := Demo.logged_in [None; Some lost] in
  let s' := snd (delete_file (Demo.pick 0) s) in
  fst (Transport.remove 0%nat "./notes.txt" (snd s)) = Return tt
  /\ content (snd s') Demo.u ["home"; "u"; "notes.txt"] = None
  /\ RemoteFileModel._data (remote_model (fst s')) = ["notes.txt"; "docs"; "blob.bin"]
  /\ ("notes.txt" ∈ RemoteFileModel._data (remote_model (fst s')))
  /\ last (shown (fst s')) = Some (Information "Delete Success" "Deleted notes.txt").
Proof.
  cbn zeta. split; [vm_compute; reflexivity|]. split; [vm_compute; reflexivity|].
  assert (Hm : RemoteFileModel._data
                 (remote_model (fst (snd (delete_file (Demo.pick 0)
                    (Demo.logged_in [None; Some (mkFault (IOError "Socket is closed") 0)])))))
               = ["notes.txt"; "docs"; "blob.bin"]) by (vm_compute; reflexivity).
  split; [exact Hm|]. split; [rewrite Hm; apply list_elem_of_here|].
  vm_compute. reflexivity.
Qed.

(** * Further properties *)

(** ** More on the listing model *)

Lemma py_getitem_lookup {A} (l : list A) (n : nat) (x : A) :
  l !! n = Some x -> py_getitem l (Z.of_nat n) = Return x.
Proof.
  intros H. pose proof (lookup_lt_Some _ _ _ H) as Hlt. unfold py_getitem.
  destruct (Z.ltb_spec (Z.of_nat n) 0) as [?|_]; [lia|].
  destruct (Z.leb_spec 0 (Z.of_nat n)) as [_|?]; [|lia].
  destruct (Z.ltb_spec (Z.of_nat n) (Z.of_nat (length l))) as [_|?]; [|lia].
  cbn [andb]. now rewrite Nat2Z.id, H.
Qed.

Lemma py_getitem_beyond {A} (l : list A) (i : Z) :
  Z.of_nat (length l) <= i ->
  py_getitem l i = Raise (IndexError "list index out of range").
Proof.
  intros H. unfold py_getitem.
  destruct (Z.ltb_spec i 0) as [?|_]; [lia|].
  destruct (Z.ltb_spec i (Z.of_nat (length l))) as [?|_]; [lia|].
  now rewrite andb_false_r.
Qed.

(** X1: for a row and a column that fit the C [int] of Qt's signature,
    [index] never raises, and the index it returns is valid exactly for a row
    of the list, column 0 and the root as parent; a valid one is
    [createIndex row column]. *)
Theorem index_valid_iff (m : RemoteFileModel.t) (r c : Z) (p : QModelIndex) :
  -2147483648 <= r < 2147483648 -> -2147483648 <= c < 2147483648 ->
  exists i,
    RemoteFileModel.index m r c p = Return i
    /\ (isValid i = true <->
        0 <= r < Z.of_nat (length (RemoteFileModel._data m)) /\ c = 0 /\ isValid p = false)
    /\ (isValid i = true -> i = createIndex r c).
Proof.
  intros _ _.
  unfold RemoteFileModel.index, RemoteFileModel.hasIndex, RemoteFileModel.rowCount,
    RemoteFileModel.columnCount.
  destruct (Z.ltb_spec r 0) as [Hr|Hr]; cbn [orb negb].
  { exists invalid_index. split; [reflexivity|]. split; [|discriminate].
    split; [discriminate|lia]. }
  destruct (Z.ltb_spec c 0) as [Hc|Hc]; cbn [orb negb].
  { exists invalid_index. split; [reflexivity|]. split; [|discriminate].
    split; [discriminate|lia]. }
  destruct (isValid p) eqn:Hp; cbn [negb].
  { destruct (Z.ltb_spec r 0) as [?|_]; [lia|]. cbn [andb negb].
    exists invalid_index. split; [reflexivity|]. split; [|discriminate].
    split; [discriminate|]. intros (_ & _ & H). discriminate H. }
  destruct (Z.ltb_spec r (Z.of_nat (length (RemoteFileModel._data m)))) as [Hlt|Hge];
    cbn [andb negb].
  2: { exists invalid_index. split; [reflexivity|]. split; [|discriminate].
       split; [discriminate|lia]. }
  destruct (Z.ltb_spec c 1) as [Hc1|Hc1]; cbn [negb].
  2: { exists invalid_index. split; [reflexivity|]. split; [|discriminate].
       split; [discriminate|lia]. }
  destruct (lookup_lt_is_Some_2 (RemoteFileModel._data m) (Z.to_nat r)) as [x Hx]; [lia|].
  assert (Hget : py_getitem (RemoteFileModel._data m) r = Return x).
  { rewrite <- (Z2Nat.id r) by lia. now apply py_getitem_lookup. }
  rewrite Hget.
  exists (createIndex r c). split; [reflexivity|]. split; [|reflexivity].
  unfold isValid, createIndex. cbn.
  destruct (Z.leb_spec 0 r); [|lia]. destruct (Z.leb_spec 0 c); [|lia].
  cbn. split; [intros _; repeat split; lia | reflexivity].
Qed.

Lemma index_valid_iff_witness :
  -2147483648 <= 1 < 2147483648
  /\ -2147483648 <= 0 < 2147483648
  /\ exists i,
    RemoteFileModel.index (RemoteFileModel.init (Some ["a"; "b"])) 1 0 invalid_index = Return i
    /\ isValid i = true.
Proof.
  split; [lia|]. split; [lia|].
  destruct (index_valid_iff (RemoteFileModel.init (Some ["a"; "b"])) 1 0 invalid_index)
    as (i & Hi & Hiff & _); [lia | lia |].
  exists i. split; [exact Hi|]. apply Hiff. cbn. repeat split; lia.
Defined.

(** X2: a listed name is read back through the model: for the [n]-th name
    of the list, [index(n, 0)] is a valid index and [data] of it with the
    display role is that name. *)
Theorem index_then_data (m : RemoteFileModel.t) (n : nat) (name : string) :
  RemoteFileModel._data m !! n = Some name ->
  RemoteFileModel.index m (Z.of_nat n) 0 invalid_index = Return (createIndex (Z.of_nat n) 0)
  /\ isValid (createIndex (Z.of_nat n) 0) = true
  /\ RemoteFileModel.data m (createIndex (Z.of_nat n) 0) DisplayRole = Return (Some name).
Proof.
  intros H. pose proof (lookup_lt_Some _ _ _ H) as Hlt.
  assert (Hv : isValid (createIndex (Z.of_nat n) 0) = true).
  { unfold isValid, createIndex. cbn. destruct (Z.leb_spec 0 (Z.of_nat n)); [reflexivity|lia]. }
  split; [|split; [exact Hv|]].
  - unfold RemoteFileModel.index, RemoteFileModel.hasIndex, RemoteFileModel.rowCount,
      RemoteFileModel.columnCount.
    change (isValid invalid_index) with false. cbn [negb orb].
    destruct (Z.ltb_spec (Z.of_nat n) 0); [lia|]. cbn [orb].
    destruct (Z.ltb_spec (Z.of_nat n) (Z.of_nat (length (RemoteFileModel._data m))));
      [|lia].
    cbn. now rewrite (py_getitem_lookup _ _ _ H).
  - unfold RemoteFileModel.data. rewrite Hv. cbn [negb]. cbn [row createIndex].
    now rewrite (py_getitem_lookup _ _ _ H).
Qed.

Lemma index_then_data_witness :
  RemoteFileModel._data (RemoteFileModel.init (Some ["a"; "b"])) !! 1%nat = Some "b"
  /\ RemoteFileModel.data (RemoteFileModel.init (Some ["a"; "b"])) (createIndex 1 0) DisplayRole
     = Return (Some "b").
Proof.
  split; [reflexivity|].
  apply (index_then_data (RemoteFileModel.init (Some ["a"; "b"])) 1 "b" eq_refl).
Defined.

(** X3: the edges of [data]: an invalid index and a role other than the
    display role give [None]; a valid index whose row lies beyond the list (an
    index kept from a longer listing) raises IndexError. *)
Theorem data_edges (m : RemoteFileModel.t) (i : QModelIndex) (role : Z) :
  (isValid i = false -> RemoteFileModel.data m i role = Return None)
  /\ (role <> DisplayRole -> RemoteFileModel.data m i role = Return None)
  /\ (isValid i = true -> Z.of_nat (length (RemoteFileModel._data m)) <= row i ->
      RemoteFileModel.data m i DisplayRole
      = Raise (IndexError "list index out of range")).
Proof.
  unfold RemoteFileModel.data. split; [|split].
  - intros ->. reflexivity.
  - intros Hr. destruct (isValid i); [|reflexivity]. cbn [negb].
    destruct (Z.eqb_spec role DisplayRole); [contradiction|reflexivity].
  - intros -> Hrow. cbn [negb]. now rewrite (py_getitem_beyond _ _ Hrow).
Qed.

Lemma data_edges_witness :
  isValid (createIndex 2 0) = true
  /\ RemoteFileModel.data (RemoteFileModel.init (Some ["a"; "b"])) (createIndex 2 0) DisplayRole
     = Raise (IndexError "list index out of range").
Proof.
  split; [reflexivity|].
  apply (proj2 (proj2 (data_edges (RemoteFileModel.init (Some ["a"; "b"]))
                         (createIndex 2 0) DisplayRole))).
  - reflexivity.
  - cbn. lia.
Defined.

(** ** What the operations leave alone *)

Section Preserves.
Context {S : Type} (R : S -> S -> Prop).
Hypothesis R_refl : forall s, R s s.
Hypothesis R_trans : forall s1 s2 s3, R s1 s2 -> R s2 s3 -> R s1 s3.

Lemma preserves_ret {A} (a : A) : preserves R (ret a).
Proof. intros s. apply R_refl. Qed.

Lemma preserves_throw {A} (e : exn) : preserves R (throw (A := A) e).
Proof. intros s. apply R_refl. Qed.

Lemma preserves_gets {A} (f : S -> A) : preserves R (gets f).
Proof. intros s. apply R_refl. Qed.

Lemma preserves_of_outcome {A} (o : outcome A) : preserves R (of_outcome o).
Proof. intros s. apply R_refl. Qed.

Lemma preserves_bind {A B} (m : M S A) (k : A -> M S B) :
  preserves R m -> (forall a, preserves R (k a)) -> preserves R (bind m k).
Proof.
  intros Hm Hk s. unfold bind. specialize (Hm s).
  destruct (m s) as [[a|e] s1]; cbn [snd] in *; [|exact Hm].
  eapply R_trans; [exact Hm | apply Hk].
Qed.

Lemma preserves_try_except {A} (m : M S A) (k : exn -> M S A) :
  preserves R m -> (forall e, preserves R (k e)) -> preserves R (try_except m k).
Proof.
  intros Hm Hk s. unfold try_except. specialize (Hm s).
  destruct (m s) as [[a|e] s1]; cbn [snd] in *; [exact Hm|].
  eapply R_trans; [exact Hm | apply Hk].
Qed.

Lemma preserves_try_except_IOError {A} (m k : M S A) :
  preserves R m -> preserves R k -> preserves R (try_except_IOError m k).
Proof.
  intros Hm Hk s. unfold try_except_IOError. specialize (Hm s).
  destruct (m s) as [[a|e] s1]; cbn [snd] in *; [exact Hm|].
  destruct (is_IOError e); [|exact Hm].
  eapply R_trans; [exact Hm | apply Hk].
Qed.
End Preserves.

Lemma unchanged_refl {B} (f : SCPClientApp -> B) (s : cfg) : unchanged f s s.
Proof. reflexivity. Qed.

Lemma unchanged_trans {B} (f : SCPClientApp -> B) (s1 s2 s3 : cfg) :
  unchanged f s1 s2 -> unchanged f s2 s3 -> unchanged f s1 s3.
Proof. unfold unchanged. intros H1 H2. now rewrite H2. Qed.

Lemma unchanged_remote {A B} (f : SCPClientApp -> B) (m : M world A) :
  preserves (unchanged f) (remote m).
Proof. intros s. unfold unchanged. now rewrite remote_keeps_app. Qed.

Lemma unchanged_update {B} (f : SCPClientApp -> B) (g : SCPClientApp -> SCPClientApp) :
  (forall a, f (g a) = f a) -> preserves (unchanged f) (update g).
Proof. intros H s. apply H. Qed.

(** One step of a frame argument: split the computation at its head and
    close the leaves. *)
Ltac frame_step f :=
  lazymatch goal with
  | |- preserves _ (bind _ _) =>
      apply (preserves_bind _ (unchanged_trans f)); [|intros ?]
  | |- preserves _ (try_except _ _) =>
      apply (preserves_try_except _ (unchanged_trans f)); [|intros ?]
  | |- preserves _ (try_except_IOError _ _) =>
      apply (preserves_try_except_IOError _ (unchanged_trans f))
  | |- preserves _ (ret _) => apply (preserves_ret _ (unchanged_refl f))
  | |- preserves _ (throw _) => apply (preserves_throw _ (unchanged_refl f))
  | |- preserves _ (gets _) => apply (preserves_gets _ (unchanged_refl f))
  | |- preserves _ (self _) => apply (preserves_gets _ (unchanged_refl f))
  | |- preserves _ (of_outcome _) => apply (preserves_of_outcome _ (unchanged_refl f))
  | |- preserves _ (remote _) => apply unchanged_remote
  | |- preserves _ (update _) => apply unchanged_update; intros ?; reflexivity
  | |- preserves _ (if ?b then _ else _) => destruct b
  | |- preserves _ (match ?x with _ => _ end) => destruct x
  end.

Ltac frame f :=
  unfold run, connect_ssh, remote_directory_navigate, disconnect_ssh, upload_file,
    download_file, open_file, save_file, delete_file;
  unfold load_remote_directory, populate_remote_file_tree, selected_remote, decode, encode,
    _connect_ssh_thread, is_directory, stat_st_mode, attr, join;
  unfold_ui; cbn zeta; repeat frame_step f.

Lemma load_remote_directory_keeps_place : preserves (unchanged place) load_remote_directory.
Proof. frame place. Qed.

(** X4: no toolbar operation moves the session: refresh, upload, download,
    open, save and delete leave the ssh, sftp and scp handles and the current
    remote path exactly as they were, whatever the server does. *)
Theorem operations_keep_place (op : operation) (s : cfg) :
  handles (fst (snd (run op s))) = handles (fst s)
  /\ remote_path (fst (snd (run op s))) = remote_path (fst s).
Proof.
  assert (H : preserves (unchanged place) (run op)) by (destruct op; frame place).
  specialize (H s). unfold unchanged, place in H.
  split; [exact (f_equal fst H) | exact (f_equal snd H)].
Qed.

(** X5: only opening a file touches the editor, and only refresh and delete
    replace the listing: every other operation leaves the editor text and
    its visibility, respectively the remote model, unchanged. *)
Theorem operations_keep_editor_and_model (op : operation) (s : cfg) :
  ((forall sel, op <> Open sel) -> editor (fst (snd (run op s))) = editor (fst s))
  /\ (op <> Refresh -> (forall sel, op <> Delete sel) ->
      remote_model (fst (snd (run op s))) = remote_model (fst s)).
Proof.
  split.
  - intros Hop.
    assert (H : preserves (unchanged editor) (run op)).
    { destruct op as [|ls|sel d|sel|sel|sel];
        try (exfalso; apply (Hop sel); reflexivity); frame editor. }
    exact (H s).
  - intros Hr Hd.
    assert (H : preserves (unchanged remote_model) (run op)).
    { destruct op as [|ls|sel d|sel|sel|sel];
        try (exfalso; apply Hr; reflexivity);
        try (exfalso; apply (Hd sel); reflexivity); frame remote_model. }
    exact (H s).
Qed.

Lemma operations_keep_editor_and_model_witness :
  editor (fst (snd (run (Save (Demo.pick 0)) (Demo.typing "v2" (Demo.logged_in [])))))
  = editor (fst (Demo.typing "v2" (Demo.logged_in []))).
Proof.
  apply (proj1 (operations_keep_editor_and_model (Save (Demo.pick 0))
                  (Demo.typing "v2" (Demo.logged_in [])))).
  intros sel. discriminate.
Defined.

(** ** Failures that are caught, and those that are not *)

Lemma try_except_returns {S} (m : M S unit) (k : exn -> M S unit) (s : S) :
  (forall e s', fst (k e s') = Return tt) -> fst (try_except m k s) = Return tt.
Proof.
  intros Hk. unfold try_except. destruct (m s) as [[[]|e] s']; [reflexivity|apply Hk].
Qed.

Lemma run_refused (op : operation) (a : SCPClientApp) (w : world) :
  connected a = false ->
  run op (a, w) = (Return tt, (show (Warning "No Connection" (refusal op)) a, w)).
Proof.
  intros Hc.
  destruct op; simpl run;
    [ unfold load_remote_directory | unfold upload_file | unfold download_file
    | unfold open_file | unfold save_file | unfold delete_file ];
    unfold_ui; unfold_monad; simpl; rewrite Hc; reflexivity.
Qed.

Lemma load_remote_directory_returns (s : cfg) :
  fst (load_remote_directory s) = Return tt.
Proof.
  destruct s as [a w]. unfold load_remote_directory. unfold bind at 1.
  unfold self, gets. cbn [fst snd id].
  destruct (negb (connected a)); [reflexivity|].
  apply try_except_returns. reflexivity.
Qed.

(** The application object after a connect that fails in [ssh.connect] or
    in [open_sftp]. *)
Lemma connect_ssh_failed (host username password : string)
    (a : SCPClientApp) (w : world) (flt : fault) :
  truth host && truth username && truth password = true ->
  nth_fault 0 w = Some flt \/ (nth_fault 0 w = None /\ nth_fault 1 w = Some flt) ->
  fst (snd (connect_ssh host username password (a, w)))
  = show (Critical "Connection Failed" "Error: " (f_exn flt))
         (set_ssh (Some (length (clients w))) a).
Proof.
  intros Ht Hflt. unfold connect_ssh. rewrite Ht.
  unfold try_except. unfold bind at 1. rewrite _connect_ssh_thread_eq. cbn zeta.
  destruct Hflt as [H0 | [H0 H1]]; rewrite H0; [|rewrite H1]; reflexivity.
Qed.

(** X6: the Connect button never lets an exception escape.  With an empty
    host, user name or password it does nothing at all.  Otherwise a failure
    of [ssh.connect] or of [open_sftp] ends in a "Connection Failed" box
    naming the error, with [self.ssh] already replaced by the new client
    object while [self.sftp] and [self.scp] still hold what they held. *)
Theorem connect_ssh_failures (host username password : string)
    (a : SCPClientApp) (w : world) :
  let s' := snd (connect_ssh host username password (a, w)) in
  fst (connect_ssh host username password (a, w)) = Return tt
  /\ (truth host && truth username && truth password = false -> s' = (a, w))
  /\ (truth host && truth username && truth password = true ->
      forall flt,
        nth_fault 0 w = Some flt \/ (nth_fault 0 w = None /\ nth_fault 1 w = Some flt) ->
        fst s' = show (Critical "Connection Failed" "Error: " (f_exn flt))
                      (set_ssh (Some (length (clients w))) a)
        /\ sftp (fst s') = sftp a /\ scp (fst s') = scp a).
Proof.
  cbn zeta. split; [|split].
  - unfold connect_ssh.
    destruct (truth host && truth username && truth password); [|reflexivity].
    apply try_except_returns. reflexivity.
  - intros Ht. unfold connect_ssh. now rewrite Ht.
  - intros Ht flt Hflt. rewrite (connect_ssh_failed _ _ _ _ _ flt Ht Hflt). repeat split.
Qed.

Lemma connect_ssh_failures_witness :
  let refused := mkFault (OtherException "AuthenticationException" "Authentication failed.") 0 in
  let s' := snd (connect_ssh "h" "u" "wrong" (Demo.start [Some refused])) in
  fst s' = show (Critical "Connection Failed" "Error: " (f_exn refused))
                (set_ssh (Some 0%nat) init)
  /\ sftp (fst s') = None /\ scp (fst s') = None.
Proof.
  cbn zeta.
  apply (proj2 (proj2 (connect_ssh_failures "h" "u" "wrong" init
           (Demo.server [Some (mkFault (OtherException "AuthenticationException"
                                          "Authentication failed.") 0)]))) eq_refl).
  left. reflexivity.
Defined.

(** X7: a connect that fails does not open the gate: if the application had
    no SFTP session before, it has none after, although [self.ssh] is now
    set, and every toolbar operation still only shows its "No Connection"
    warning without touching the server. *)
Theorem failed_connect_stays_disconnected (host username password : string)
    (a : SCPClientApp) (w : world) (flt : fault) (op : operation) :
  sftp a = None ->
  truth host && truth username && truth password = true ->
  nth_fault 0 w = Some flt \/ (nth_fault 0 w = None /\ nth_fault 1 w = Some flt) ->
  let s' := snd (connect_ssh host username password (a, w)) in
  ssh (fst s') = Some (length (clients w))
  /\ connected (fst s') = false
  /\ run op s'
     = (Return tt, (show (Warning "No Connection" (refusal op)) (fst s'), snd s')).
Proof.
  intros Hs Ht Hflt. cbn zeta.
  pose proof (connect_ssh_failed host username password a w flt Ht Hflt) as Ha.
  assert (Hc : connected (fst (snd (connect_ssh host username password (a, w)))) = false).
  { rewrite Ha. unfold connected. cbn. now rewrite Hs. }
  split; [now rewrite Ha|]. split; [exact Hc|].
  destruct (snd (connect_ssh host username password (a, w))) as [a' w'].
  now apply run_refused.
Qed.

Lemma failed_connect_stays_disconnected_witness :
  let refused := mkFault (OtherException "AuthenticationException" "Authentication failed.") 0 in
  let s' := snd (connect_ssh "h" "u" "wrong" (Demo.start [Some refused])) in
  ssh (fst s') = Some 0%nat
  /\ connected (fst s') = false
  /\ run Refresh s'
     = (Return tt, (show (Warning "No Connection" (refusal Refresh)) (fst s'), snd s')).
Proof.
  cbn zeta.
  apply (failed_connect_stays_disconnected "h" "u" "wrong" init
           (Demo.server [Some (mkFault (OtherException "AuthenticationException"
                                          "Authentication failed.") 0)])
           (mkFault (OtherException "AuthenticationException" "Authentication failed.") 0)
           Refresh eq_refl eq_refl).
  left. reflexivity.
Defined.

(** X8: a refresh never raises, and a listing that fails leaves the old
    listing in place: the application then differs only by an error box and a
    printed line, both naming the error.  A listing that returns replaces the
    model, whose row count under the root is the number of names listed. *)
Theorem load_remote_directory_outcomes (a : SCPClientApp) (w : world) (h : handle) :
  fst (load_remote_directory (a, w)) = Return tt
  /\ (connected a = true -> sftp a = Some h ->
      (forall e w', Transport.listdir h (remote_path a) w = (Raise e, w') ->
         snd (load_remote_directory (a, w))
         = (show (PrintedExn "Error loading remote directory: " e)
              (show (Critical "Error" "Failed to load remote directory: " e) a), w'))
      /\ (forall files w', Transport.listdir h (remote_path a) w = (Return files, w') ->
         RemoteFileModel._data (remote_model (fst (snd (load_remote_directory (a, w)))))
         = files
         /\ RemoteFileModel.rowCount (remote_model (fst (snd (load_remote_directory (a, w)))))
              invalid_index = Z.of_nat (length files)
         /\ status_bar (fst (snd (load_remote_directory (a, w))))
            = "Loaded remote directory: " +:+ remote_path a)).
Proof.
  split; [apply load_remote_directory_returns|].
  intros Hc Hs. rewrite (load_remote_directory_eq a w h Hc Hs). split.
  - intros e w' ->. reflexivity.
  - intros files w' ->. cbn [fst snd]. cbn [remote_model set_status_bar set_remote_model].
    rewrite init_data. repeat split.
    unfold RemoteFileModel.rowCount.
    change (isValid invalid_index) with false. cbn [negb]. now rewrite init_data.
Qed.

Lemma load_remote_directory_outcomes_witness :
  let lost := mkFault (IOError "Socket is closed") 0 in
  let s := Demo.logged_in [Some lost] in
  remote_model (fst (snd (load_remote_directory s))) = remote_model (fst s)
  /\ shown (fst (snd (load_remote_directory s)))
     = shown (fst s) ++ [Critical "Error" "Failed to load remote directory: " (f_exn lost);
                         PrintedExn "Error loading remote directory: " (f_exn lost)].
Proof.
  cbn zeta.
  pose proof (proj1 (proj2 (load_remote_directory_outcomes
                (fst (Demo.logged_in [Some (mkFault (IOError "Socket is closed") 0)]))
                (snd (Demo.logged_in [Some (mkFault (IOError "Socket is closed") 0)]))
                0%nat) eq_refl eq_refl)
              (IOError "Socket is closed")
              (snd (Transport.listdir 0%nat "."
                 (snd (Demo.logged_in [Some (mkFault (IOError "Socket is closed") 0)]))))
              eq_refl) as H.
  change (fst (Demo.logged_in [Some (mkFault (IOError "Socket is closed") 0)]),
          snd (Demo.logged_in [Some (mkFault (IOError "Socket is closed") 0)]))
    with (Demo.logged_in [Some (mkFault (IOError "Socket is closed") 0)]) in H.
  rewrite H. split; reflexivity.
Defined.

(** X9: with an entry selected, no toolbar operation lets an exception
    escape: whatever the transport raises is caught by the operation, which
    returns normally. *)
Theorem operations_catch_failures (op : operation) (s : cfg) :
  has_selection op s -> fst (run op s) = Return tt.
Proof.
  destruct s as [a w]. intros Hsel.
  destruct (connected a) eqn:Hc; [|now rewrite run_refused].
  destruct op as [|ls|sel d|sel|sel|sel]; cbn [run has_selection] in *.
  - apply load_remote_directory_returns.
  - destruct ls as [|x ls]; [contradiction|].
    unfold upload_file. unfold bind at 1. unfold self, gets. cbn [fst snd id].
    rewrite Hc. cbn [negb]. unfold bind at 1, of_outcome.
    change (py_getitem (x :: ls) 0) with (Return x). cbn [fst snd].
    apply try_except_returns. reflexivity.
  - destruct Hsel as (name & path & Hsel). apply selected_remote_inv in Hsel as [Hsel _].
    unfold download_file. unfold bind at 1. unfold self, gets. cbn [fst snd id].
    rewrite Hc. cbn [negb]. unfold bind at 1. rewrite Hsel. cbn [fst snd].
    destruct (truth d); [|reflexivity]. apply try_except_returns. reflexivity.
  - destruct Hsel as (name & path & Hsel). apply selected_remote_inv in Hsel as [Hsel _].
    unfold open_file. unfold bind at 1. unfold self, gets. cbn [fst snd id].
    rewrite Hc. unfold bind at 1. rewrite Hsel. cbn [fst snd].
    apply try_except_returns. reflexivity.
  - destruct Hsel as (name & path & Hsel). apply selected_remote_inv in Hsel as [Hsel _].
    unfold save_file. unfold bind at 1. unfold self, gets. cbn [fst snd id].
    rewrite Hc. unfold bind at 1. rewrite Hsel. cbn [fst snd].
    apply try_except_returns. reflexivity.
  - destruct Hsel as (name & path & Hsel). apply selected_remote_inv in Hsel as [Hsel _].
    unfold delete_file. unfold bind at 1. unfold self, gets. cbn [fst snd id].
    rewrite Hc. unfold bind at 1. rewrite Hsel. cbn [fst snd].
    apply try_except_returns. reflexivity.
Qed.

Lemma operations_catch_failures_witness :
  let lost := mkFault (IOError "Socket is closed") 0 in
  has_selection (Delete (Demo.pick 0)) (Demo.logged_in [Some lost])
  /\ fst (run (Delete (Demo.pick 0)) (Demo.logged_in [Some lost])) = Return tt.
Proof.
  cbn zeta.
  assert (H : has_selection (Delete (Demo.pick 0))
                (Demo.logged_in [Some (mkFault (IOError "Socket is closed") 0)])).
  { exists "notes.txt", "./notes.txt". vm_compute. reflexivity. }
  split; [exact H|]. apply (operations_catch_failures _ _ H).
Defined.

(** X10: with a connection but nothing selected, upload, download, open,
    save and delete raise IndexError: the selection is read outside the
    [try], before any transport call, and nothing has changed. *)
Theorem nothing_selected_raises (op : operation) (a : SCPClientApp) (w : world) :
  connected a = true -> nothing_selected op ->
  run op (a, w) = (Raise (IndexError "list index out of range"), (a, w)).
Proof.
  intros Hc Hsel.
  destruct op as [|ls|sel d|sel|sel|sel]; cbn [run nothing_selected] in *;
    [contradiction|subst ..];
    [ unfold upload_file | unfold download_file | unfold open_file | unfold save_file
    | unfold delete_file ];
    unfold bind at 1; unfold self, gets; cbn [fst snd id]; rewrite Hc; reflexivity.
Qed.

Lemma nothing_selected_raises_witness :
  run (Open []) (Demo.logged_in [])
  = (Raise (IndexError "list index out of range"), Demo.logged_in []).
Proof.
  apply (nothing_selected_raises (Open []) (fst (Demo.logged_in [])) (snd (Demo.logged_in []))
           eq_refl eq_refl).
Defined.

(** X11: cancelling the directory dialog cancels the download: with an
    entry selected and an empty directory, nothing is transferred, no box is
    shown and nothing changes. *)
Theorem download_cancelled (selection : list QModelIndex) (a : SCPClientApp) (w : world)
    (name path : string) :
  connected a = true ->
  fst (selected_remote selection (a, w)) = Return (name, path) ->
  download_file selection "" (a, w) = (Return tt, (a, w)).
Proof.
  intros Hc Hsel. apply selected_remote_inv in Hsel as [Hsel _].
  unfold download_file. unfold bind at 1. unfold self, gets. cbn [fst snd id].
  rewrite Hc. cbn [negb]. unfold bind at 1. now rewrite Hsel.
Qed.

Lemma download_cancelled_witness :
  download_file (Demo.pick 0) "" (Demo.logged_in []) = (Return tt, Demo.logged_in []).
Proof.
  apply (download_cancelled (Demo.pick 0) (fst (Demo.logged_in [])) (snd (Demo.logged_in []))
           "notes.txt" "./notes.txt" eq_refl eq_refl).
Defined.

(** ** More on navigation *)

(** X12: what navigation does not catch.  A double click that carries an
    invalid index raises TypeError from the path join; with no SFTP session
    (after a disconnect the old listing is still shown) it raises
    AttributeError; and an error of the stat call that is not an IOError
    passes through the directory test.  In the first two cases nothing has
    changed. *)
Theorem navigate_uncaught (index : QModelIndex) (a : SCPClientApp) (w : world) :
  (isValid index = false ->
   remote_directory_navigate index (a, w)
   = (Raise (TypeError "expected str, bytes or os.PathLike object, not NoneType"), (a, w)))
  /\ (forall name,
       RemoteFileModel.data (remote_model a) index DisplayRole = Return (Some name) ->
       sftp a = None ->
       remote_directory_navigate index (a, w) = (Raise (AttributeError "stat"), (a, w)))
  /\ (forall name e s1,
       RemoteFileModel.data (remote_model a) index DisplayRole = Return (Some name) ->
       stat_st_mode (os_path_join (remote_path a) name) (a, w) = (Raise e, s1) ->
       is_IOError e = false ->
       remote_directory_navigate index (a, w) = (Raise e, s1)).
Proof.
  rewrite remote_directory_navigate_eq. split; [|split].
  - intros Hv. unfold RemoteFileModel.data. now rewrite Hv.
  - intros name -> Hs. cbn zeta. unfold is_directory, stat_st_mode. unfold_monad.
    cbn [fst snd]. now rewrite Hs.
  - intros name e s1 -> Hstat He. cbn zeta.
    unfold is_directory, try_except_IOError, bind. now rewrite Hstat, He.
Qed.

Lemma navigate_uncaught_witness :
  let a := fst (snd (disconnect_ssh (Demo.logged_in []))) in
  let w := snd (snd (disconnect_ssh (Demo.logged_in []))) in
  RemoteFileModel.data (remote_model a) (createIndex 1 0) DisplayRole = Return (Some "docs")
  /\ sftp a = None
  /\ remote_directory_navigate (createIndex 1 0) (a, w)
     = (Raise (AttributeError "stat"), (a, w)).
Proof.
  cbn zeta. split; [vm_compute; reflexivity|]. split; [vm_compute; reflexivity|].
  apply (proj1 (proj2 (navigate_uncaught (createIndex 1 0)
                  (fst (snd (disconnect_ssh (Demo.logged_in []))))
                  (snd (snd (disconnect_ssh (Demo.logged_in [])))))) "docs").
  - vm_compute. reflexivity.
  - vm_compute. reflexivity.
Defined.

Lemma land_mode_bit (n : node) :
  Z.land (st_mode n) 16384 = Z.land (S_IFMT (n_kind n)) 16384.
Proof.
  unfold st_mode. rewrite Z.land_lor_distr_l, <- Z.land_assoc.
  change (Z.land 4095 16384) with 0. now rewrite Z.land_0_r, Z.lor_0_r.
Qed.

(** X13: the directory test looks at one bit of the mode only.  For a path
    that the server can stat, the test is truthy for a directory and also for
    a block device and a socket, whose type bits contain 0o040000; it is falsy
    for a regular file, a character device and a FIFO. *)
Theorem is_directory_by_kind (path : string) (a : SCPClientApp) (w : world)
    (h : handle) (cl : client) (n : node) :
  sftp a = Some h ->
  clients w !! h = Some cl -> c_status cl = Live ->
  nth_fault 0 w = None ->
  Transport.fs_of w cl !! resolve (Transport.home cl) path = Some n ->
  exists v,
    is_directory path (a, w) = (Return v, (a, served (CallStat h path) w))
    /\ truthy v = passes_directory_test (n_kind n).
Proof.
  intros Hs Hcl Hlive Hf Hn.
  exists (PyInt (Z.land (st_mode n) 16384)). split.
  - unfold is_directory, stat_st_mode. unfold_monad. cbn [fst snd].
    now rewrite Hs, (stat_eq _ _ _ cl Hcl Hlive), Hf, Hn.
  - rewrite land_mode_bit. now destruct (n_kind n).
Qed.

Lemma is_directory_by_kind_witness :
  exists v,
    is_directory "./docs" (Demo.logged_in [])
    = (Return v, (fst (Demo.logged_in []),
                  served (CallStat 0%nat "./docs") (snd (Demo.logged_in []))))
    /\ truthy v = true.
Proof.
  apply (is_directory_by_kind "./docs" (fst (Demo.logged_in [])) (snd (Demo.logged_in []))
           0%nat Demo.u Demo.dir eq_refl eq_refl eq_refl eq_refl eq_refl).
Defined.

Lemma listdir_eq (h : handle) (p : string) (w : world) (cl : client) (n : node) :
  clients w !! h = Some cl -> c_status cl = Live ->
  Transport.fs_of w cl !! resolve (Transport.home cl) p = Some n ->
  n_kind n = Directory ->
  Transport.listdir h p w
  = match nth_fault 0 w with
    | Some f => (Raise (f_exn f), served (CallListdir h p) w)
    | None =>
        (Return (listdir_names (Transport.fs_of w cl) (resolve (Transport.home cl) p)),
         served (CallListdir h p) w)
    end.
Proof.
  intros Hcl Hlive Hn Hd. unfold Transport.listdir.
  rewrite (request_eq _ _ _ _ cl Hcl Hlive).
  destruct (nth_fault 0 w); [reflexivity|]. cbn zeta. now rewrite Hn, Hd.
Qed.

(** X14: navigating into a directory.  When the selected entry is a
    directory on the server, the current path becomes the joined path before
    the listing is fetched.  If the listing then returns, the model holds the
    names of that directory; if it fails, the path has moved all the same
    while the model still holds the listing of the directory left behind. *)
Theorem navigate_into_directory (index : QModelIndex) (a : SCPClientApp) (w : world)
    (h : handle) (cl : client) (n : node) (name : string) :
  RemoteFileModel.data (remote_model a) index DisplayRole = Return (Some name) ->
  connected a = true -> sftp a = Some h ->
  clients w !! h = Some cl -> c_status cl = Live ->
  nth_fault 0 w = None ->
  Transport.fs_of w cl
    !! resolve (Transport.home cl) (os_path_join (remote_path a) name) = Some n ->
  n_kind n = Directory ->
  let new_path := os_path_join (remote_path a) name in
  let s' := snd (remote_directory_navigate index (a, w)) in
  fst (remote_directory_navigate index (a, w)) = Return tt
  /\ remote_path (fst s') = new_path
  /\ trace (snd s') = trace w ++ [CallStat h new_path; CallListdir h new_path]
  /\ match nth_fault 1 w with
     | None =>
         RemoteFileModel._data (remote_model (fst s'))
         = listdir_names (Transport.fs_of w cl) (resolve (Transport.home cl) new_path)
     | Some flt =>
         remote_model (fst s') = remote_model a
         /\ shown (fst s')
            = shown a ++ [Critical "Error" "Failed to load remote directory: " (f_exn flt);
                          PrintedExn "Error loading remote directory: " (f_exn flt)]
     end.
Proof.
  intros Hname Hc Hs Hcl Hlive Hf Hn Hd. cbn zeta.
  set (new_path := os_path_join (remote_path a) name) in *.
  rewrite remote_directory_navigate_eq, Hname. cbn zeta. fold new_path.
  assert (Hdir : is_directory new_path (a, w)
                 = (Return (PyInt 16384), (a, served (CallStat h new_path) w))).
  { unfold is_directory, stat_st_mode. unfold_monad. cbn [fst snd].
    rewrite Hs, (stat_eq _ _ _ cl Hcl Hlive), Hf, Hn, land_mode_bit, Hd. reflexivity. }
  rewrite Hdir. cbn [truthy Z.eqb negb fst snd].
  rewrite (load_remote_directory_eq (set_remote_path new_path a) _ h Hc Hs).
  cbn [remote_path set_remote_path].
  rewrite (listdir_eq h new_path (served (CallStat h new_path) w) cl n Hcl Hlive Hn Hd).
  rewrite nth_fault_served.
  destruct (nth_fault 1 w) as [flt|]; cbn [fst snd].
  - repeat split; cbn; now rewrite <- app_assoc.
  - repeat split; [cbn; now rewrite <- app_assoc|].
    cbn [remote_model set_status_bar set_remote_model]. apply init_data.
Qed.

Lemma navigate_into_directory_witness :
  let s' := snd (remote_directory_navigate (createIndex 1 0) (Demo.logged_in [])) in
  remote_path (fst s') = "./docs"
  /\ RemoteFileModel._data (remote_model (fst s')) = ["a.txt"].
Proof.
  cbn zeta.
  destruct (navigate_into_directory (createIndex 1 0)
              (fst (Demo.logged_in [])) (snd (Demo.logged_in []))
              0%nat Demo.u Demo.dir "docs"
              eq_refl eq_refl eq_refl eq_refl eq_refl eq_refl eq_refl eq_refl)
    as (_ & Hp & _ & Hm).
  split; [exact Hp|]. exact Hm.
Defined.

(** ** Who closes a transport *)

Lemma keeps_open_try_except_IOError {S A} (proj : S -> world) (m k : M S A) :
  keeps_open proj m -> keeps_open proj k -> keeps_open proj (try_except_IOError m k).
Proof.
  intros Hm Hk s. unfold try_except_IOError. specialize (Hm s).
  destruct (m s) as [[a|e] s1]; cbn [snd] in *; [exact Hm|].
  destruct (is_IOError e); [|exact Hm].
  eapply stays_open_trans; [exact Hm | apply Hk].
Qed.

Lemma keeps_open_set_hosts (f : gmap string filesystem -> gmap string filesystem) :
  keeps_open id (modify (set_hosts f)).
Proof. intros w. now split. Qed.

Lemma keeps_open_set_local_files (f : gmap string (list byte) -> gmap string (list byte)) :
  keeps_open id (modify (set_local_files f)).
Proof. intros w. now split. Qed.

(** One step of the argument that a computation closes nothing. *)
Ltac open_step :=
  lazymatch goal with
  | |- keeps_open _ (bind _ _) => apply keeps_open_bind; [|intros ?]
  | |- keeps_open _ (try_except _ _) => apply keeps_open_try_except; [|intros ?]
  | |- keeps_open _ (try_except_IOError _ _) => apply keeps_open_try_except_IOError
  | |- keeps_open _ (ret _) => apply keeps_open_ret
  | |- keeps_open _ (throw _) => apply keeps_open_throw
  | |- keeps_open _ (gets _) => apply keeps_open_gets
  | |- keeps_open _ (of_outcome _) => apply keeps_open_of_outcome
  | |- keeps_open _ (update _) => apply keeps_open_update
  | |- keeps_open _ (remote _) => apply keeps_open_remote
  | |- keeps_open _ (Transport.request _ _ _) =>
      apply keeps_open_request; [reflexivity | intros ? ?; cbn zeta]
  | |- keeps_open _ (Transport.log _) => apply keeps_open_log; reflexivity
  | |- keeps_open _ Transport.next_fault => apply keeps_open_next_fault
  | |- keeps_open _ (modify (set_hosts _)) => apply keeps_open_set_hosts
  | |- keeps_open _ (modify (set_local_files _)) => apply keeps_open_set_local_files
  | |- keeps_open _ load_remote_directory => apply keeps_open_load_remote_directory
  | |- keeps_open _ (if ?b then _ else _) => destruct b
  | |- keeps_open _ (match ?x with _ => _ end) => destruct x
  end.

Ltac closes_nothing :=
  unfold run, remote_directory_navigate, upload_file, download_file, open_file, save_file,
    delete_file;
  unfold selected_remote, decode, encode, is_directory, stat_st_mode, attr, join, self,
    print;
  unfold_ui;
  unfold Transport.stat, Transport.file, Transport.read, Transport.write, Transport.remove,
    Transport.put, Transport.get, Transport.store, Transport.live_client, Transport.put_fs;
  cbn zeta; repeat open_step.

(** X15: only the Disconnect button ever closes a transport.  Whatever the
    server does, after any toolbar operation and after any double click every
    transport that was open is still open and the trace has no new [close]
    call. *)
Theorem only_disconnect_closes (s : cfg) :
  (forall op, stays_open (snd s) (snd (snd (run op s))))
  /\ (forall index, stays_open (snd s) (snd (snd (remote_directory_navigate index s)))).
Proof.
  split.
  - intros op. assert (H : keeps_open snd (run op)) by (destruct op; closes_nothing).
    apply H.
  - intros index.
    assert (H : keeps_open snd (remote_directory_navigate index)) by closes_nothing.
    apply H.
Qed.

(** ** More on disconnecting *)

Lemma close_keeps_others (h h' : handle) (w : world) :
  h' <> h -> clients (snd (Transport.close h w)) !! h' = clients w !! h'.
Proof.
  intros Hne. rewrite close_eq. destruct (nth_fault 0 w); [reflexivity|].
  cbn [snd clients set_clients served set_faults set_trace].
  destruct (clients w !! h) as [c|]; [|reflexivity].
  destruct (c_status c); try reflexivity. now rewrite list_lookup_insert_ne.
Qed.

(** X16: a disconnect whose [close] returns closes the client behind
    [self.ssh] and nothing else: every other client object keeps its state,
    the one transport call made is that [close], and of the application only
    the ssh and sftp handles, the status line and the boxes change; the scp
    handle, the current path, the listing and the editor stay as they were. *)
Theorem disconnect_ssh_closes_own_client (a : SCPClientApp) (w : world) (h : handle) :
  ssh a = Some h -> nth_fault 0 w = None ->
  let s' := snd (disconnect_ssh (a, w)) in
  is_live (snd s') h = false
  /\ (forall h', h' <> h -> clients (snd s') !! h' = clients w !! h')
  /\ trace (snd s') = trace w ++ [CallClose h]
  /\ hosts (snd s') = hosts w
  /\ scp (fst s') = scp a
  /\ remote_path (fst s') = remote_path a
  /\ remote_model (fst s') = remote_model a
  /\ text_editor (fst s') = text_editor a
  /\ text_editor_visible (fst s') = text_editor_visible a.
Proof.
  intros Hh Hf. cbn zeta. rewrite disconnect_ssh_eq, Hh, close_eq, Hf. cbn [fst snd].
  split; [|split; [|repeat split]].
  - unfold is_live. cbn [clients set_clients served set_faults set_trace].
    destruct (clients w !! h) as [c|] eqn:Hc.
    + destruct (c_status c) eqn:Hst; rewrite ?Hc, ?Hst; try reflexivity.
      rewrite list_lookup_insert_eq; [reflexivity|]. now apply lookup_lt_Some in Hc.
    + now rewrite Hc.
  - intros h' Hne. pose proof (close_keeps_others h h' w Hne) as H.
    now rewrite close_eq, Hf in H.
Qed.

Lemma disconnect_ssh_closes_own_client_witness :
  let s := connect_all [("h", "u", "secret"); ("h", "u", "secret")] (Demo.start []) in
  let s' := snd (disconnect_ssh (fst s, snd s)) in
  ssh (fst s) = Some 1%nat
  /\ nth_fault 0 (snd s) = None
  /\ is_live (snd s') 1%nat = false
  /\ clients (snd s') !! 0%nat = clients (snd s) !! 0%nat.
Proof.
  cbn zeta. split; [vm_compute; reflexivity|]. split; [vm_compute; reflexivity|].
  destruct (disconnect_ssh_closes_own_client
              (fst (connect_all [("h", "u", "secret"); ("h", "u", "secret")] (Demo.start [])))
              (snd (connect_all [("h", "u", "secret"); ("h", "u", "secret")] (Demo.start [])))
              1%nat) as (Hdead & Hothers & _).
  - vm_compute. reflexivity.
  - vm_compute. reflexivity.
  - split; [exact Hdead|]. apply Hothers. discriminate.
Defined.

(** ** More on opening and deleting *)

(** X17: opening a file either leaves the editor exactly as it was, or it
    returns normally without any box and the editor shows, visibly, a text
    that is the UTF-8 decoding of some bytes.  So every failure (no
    connection, no selection, a transport error at the open or at the read,
    bytes that do not decode) leaves the editor untouched. *)
Theorem open_file_touches_editor_only_on_success
    (selection : list QModelIndex) (s : cfg) :
  let r := open_file selection s in
  (text_editor (fst (snd r)) = text_editor (fst s)
   /\ text_editor_visible (fst (snd r)) = text_editor_visible (fst s))
  \/ (fst r = Return tt
      /\ shown (fst (snd r)) = shown (fst s)
      /\ text_editor_visible (fst (snd r)) = true
      /\ exists bytes, Utf8.decode bytes = Some (text_editor (fst (snd r)))).
Proof.
  destruct s as [a w]. cbn zeta.
  unfold open_file, selected_remote, decode. unfold_ui. unfold_monad. cbn [fst snd id].
  destruct (connected a); [|left; now split].
  destruct (py_getitem selection 0) as [idx|e]; cbn [fst snd]; [|left; now split].
  destruct (RemoteFileModel.data (remote_model a) idx DisplayRole) as [[name|]|e];
    cbn [fst snd default]; [|left; now split..].
  destruct (sftp a) as [h|]; cbn [fst snd]; [|left; now split].
  destruct (Transport.file h (os_path_join (remote_path a) name) ModeR w) as [[f|e] w1];
    cbn [fst snd]; [|left; now split].
  destruct (Transport.read h f w1) as [[bytes|e] w2]; cbn [fst snd]; [|left; now split].
  destruct (Utf8.decode bytes) as [text|] eqn:Hd; cbn [fst snd]; [|left; now split].
  right. repeat split. now exists bytes.
Qed.

Lemma request_raise_inv {A} (h : handle) (c : call)
    (serve : client -> filesystem -> M world A) (w : world) (e : exn) (w1 : world) :
  Transport.request h c serve w = (Raise e, w1) ->
  w1 = served c w
  \/ exists cl, serve cl (Transport.fs_of w cl) (served c w) = (Raise e, w1).
Proof.
  intros H.
  destruct (clients w !! h) as [cl|] eqn:Hcl.
  - destruct (c_status cl) eqn:Hlive.
    2: { rewrite (request_eq _ _ _ _ cl Hcl Hlive) in H.
         destruct (nth_fault 0 w); [left; now injection H as _ <-|right; now exists cl]. }
    all: left; revert H;
         unfold Transport.request, Transport.log, Transport.live_client, bind, modify,
           gets, throw; rewrite next_fault_eq; fold (served c w);
         change (nth_fault 0 _) with (nth_fault 0 w);
         destruct (nth_fault 0 w); [intros H; now injection H as _ <-|];
         change (clients (served c w)) with (clients w); rewrite Hcl, Hlive;
         intros H; now injection H as _ <-.
  - left. revert H.
    unfold Transport.request, Transport.log, Transport.live_client, bind, modify,
      gets, throw. rewrite next_fault_eq. fold (served c w).
    change (nth_fault 0 _) with (nth_fault 0 w).
    destruct (nth_fault 0 w); [intros H; now injection H as _ <-|].
    change (clients (served c w)) with (clients w). rewrite Hcl.
    intros H. now injection H as _ <-.
Qed.

Lemma remove_raise_world (h : handle) (p : string) (w : world) (e : exn) (w1 : world) :
  Transport.remove h p w = (Raise e, w1) -> w1 = served (CallRemove h p) w.
Proof.
  intros H. apply request_raise_inv in H as [H|[cl H]]; [exact H|]. cbn zeta in H.
  destruct (Transport.fs_of w cl !! resolve (Transport.home cl) p) as [n|];
    [|now injection H as _ <-].
  destruct (n_kind n); try discriminate H; now injection H as _ <-.
Qed.

(** X18: a delete that fails changes nothing but one box.  When the remove
    raises, [delete_file] shows "Error deleting file" with the error, does not
    refresh (the remove is the only transport call), and leaves the server's
    files, the listing and the rest of the application as they were. *)
Theorem delete_file_failure (selection : list QModelIndex) (a : SCPClientApp) (w : world)
    (h : handle) (name path : string) (e : exn) (w1 : world) :
  connected a = true -> sftp a = Some h ->
  fst (selected_remote selection (a, w)) = Return (name, path) ->
  Transport.remove h path w = (Raise e, w1) ->
  delete_file selection (a, w)
  = (Return tt, (show (Critical "Error" "Error deleting file: " e) a, w1))
  /\ trace w1 = trace w ++ [CallRemove h path]
  /\ hosts w1 = hosts w.
Proof.
  intros Hc Hs Hsel Hrm.
  rewrite (delete_file_eq _ _ _ h name path Hc Hs Hsel), Hrm.
  apply remove_raise_world in Hrm as ->. now repeat split.
Qed.

Lemma delete_file_failure_witness :
  let s := Demo.logged_in [] in
  fst (Transport.remove 0%nat "./docs" (snd s)) = Raise (IOError "Is a directory")
  /\ fst (snd (delete_file (Demo.pick 1) s))
     = show (Critical "Error" "Error deleting file: " (IOError "Is a directory")) (fst s)
  /\ hosts (snd (snd (delete_file (Demo.pick 1) s))) = hosts (snd s).
Proof.
  cbn zeta. split; [vm_compute; reflexivity|].
  destruct (delete_file_failure (Demo.pick 1)
              (fst (Demo.logged_in [])) (snd (Demo.logged_in []))
              0%nat "docs" "./docs" (IOError "Is a directory")
              (snd (Transport.remove 0%nat "./docs" (snd (Demo.logged_in []))))
              eq_refl eq_refl eq_refl) as (Heq & _ & Hhosts).
  - vm_compute. reflexivity.
  - change (fst (Demo.logged_in []), snd (Demo.logged_in [])) with (Demo.logged_in []) in Heq.
    rewrite Heq. split; [reflexivity|exact Hhosts].
Defined.

(** ** Saving and opening again *)

Lemma to_N_byte_of (n : N) : (n < 256)%N -> Byte.to_N (Utf8.byte_of n) = n.
Proof.
  intros H. unfold Utf8.byte_of.
  destruct (Byte.of_N n) as [b|] eqn:E.
  - now apply Byte.to_of_N.
  - apply Byte.of_N_None_iff in E. lia.
Qed.

Ltac decide_N :=
  repeat match goal with
  | |- context [(?a <? ?b)%N] => destruct (N.ltb_spec a b); try lia
  | |- context [(?a <=? ?b)%N] => destruct (N.leb_spec a b); try lia
  | |- context [(?a =? ?b)%N] => destruct (N.eqb_spec a b); try lia
  end.

(** Name quotient and remainder of [x] by 64 and keep only their defining
    facts. *)
Ltac split64 x q r :=
  pose proof (N.div_mod x 64 ltac:(discriminate));
  pose proof (N.mod_lt x 64 ltac:(discriminate));
  set (q := (x / 64)%N) in *; set (r := (x mod 64)%N) in *;
  clearbody q r.

Lemma decode_encode_char (c : N) (bs rest : list byte) :
  Utf8.encode_char c = Some bs ->
  Utf8.decode (bs ++ rest) = cons c <$> Utf8.decode rest.
Proof.
  unfold Utf8.encode_char.
  replace (c / 262144)%N with (c / 64 / 64 / 64)%N by (now rewrite !N.Div0.div_div).
  replace (c / 4096)%N with (c / 64 / 64)%N by (now rewrite !N.Div0.div_div).
  split64 c q1 r1. split64 q1 q2 r2. split64 q2 q3 r3.
  destruct (N.ltb_spec c 128) as [L1|L1].
  { intros E. injection E as <-. cbn [app Utf8.decode].
    rewrite to_N_byte_of by lia. destruct (N.ltb_spec c 128); [reflexivity|lia]. }
  destruct (N.ltb_spec c 2048) as [L2|L2].
  { intros E. injection E as <-. cbn [app Utf8.decode].
    rewrite !to_N_byte_of by lia.
    unfold Utf8.between, Utf8.cont, Utf8.between. decide_N. cbn [andb].
    do 2 f_equal. lia. }
  destruct (N.ltb_spec c 65536) as [L3|L3].
  { unfold Utf8.between at 1.
    destruct (N.leb_spec 55296 c) as [L4|L4]; destruct (N.leb_spec c 57343) as [L5|L5];
      cbn [andb]; try discriminate;
      intros E; injection E as <-; cbn [app Utf8.decode];
      rewrite !to_N_byte_of by lia;
      unfold Utf8.second3, Utf8.between, Utf8.cont, Utf8.between; decide_N; cbn [andb];
      do 2 f_equal; lia. }
  destruct (N.ltb_spec c 1114112) as [L4|L4]; [|discriminate].
  intros E. injection E as <-. cbn [app Utf8.decode].
  rewrite !to_N_byte_of by lia.
  unfold Utf8.second4, Utf8.between, Utf8.cont, Utf8.between. decide_N; cbn [andb];
    do 2 f_equal; lia.
Qed.

Lemma decode_encode (text : list N) (bytes : list byte) :
  Utf8.encode text = Some bytes -> Utf8.decode bytes = Some text.
Proof.
  revert bytes. induction text as [|c text IH]; intros bytes.
  - intros H. now injection H as <-.
  - cbn [Utf8.encode].
    destruct (Utf8.encode_char c) as [bs|] eqn:Hc; [|discriminate].
    destruct (Utf8.encode text) as [rest|]; [|discriminate].
    intros H. injection H as <-.
    rewrite (decode_encode_char c bs rest Hc), (IH rest eq_refl). reflexivity.
Qed.

Lemma selected_remote_same (selection : list QModelIndex) (a a' : SCPClientApp)
    (w w' : world) :
  remote_model a' = remote_model a -> remote_path a' = remote_path a ->
  fst (selected_remote selection (a', w')) = fst (selected_remote selection (a, w)).
Proof.
  intros Hm Hp. unfold selected_remote. unfold_monad. cbn [fst snd]. rewrite Hm, Hp.
  destruct (py_getitem selection 0) as [idx|e]; [|reflexivity].
  now destruct (RemoteFileModel.data (remote_model a) idx DisplayRole) as [[nm|]|e].
Qed.

(** X19: what is saved is what is opened.  When the editor text encodes and
    the selected entry is a regular file, and the transport does not fail,
    [save_file] stores exactly the UTF-8 bytes of the text; whatever the editor
    holds afterwards, [open_file] on the same entry puts that text back into
    the editor and shows it. *)
Theorem save_then_open_round_trip (selection : list QModelIndex) (a : SCPClientApp)
    (w : world) (h : handle) (cl : client) (n : node) (name path : string)
    (bytes : list byte) (typed : list N) :
  connected a = true -> sftp a = Some h ->
  fst (selected_remote selection (a, w)) = Return (name, path) ->
  clients w !! h = Some cl -> c_status cl = Live ->
  Transport.fs_of w cl !! resolve (Transport.home cl) path = Some n ->
  n_kind n = Regular ->
  Utf8.encode (text_editor a) = Some bytes ->
  (forall i, (i < 4)%nat -> nth_fault i w = None) ->
  let s1 := snd (save_file selection (a, w)) in
  let s2 := snd (open_file selection (set_text_editor typed (fst s1), snd s1)) in
  content (snd s1) cl (resolve (Transport.home cl) path) = Some bytes
  /\ text_editor (fst s2) = text_editor a
  /\ text_editor_visible (fst s2) = true.
Proof.
  intros Hc Hs Hsel Hcl Hlive Hn Hreg Henc Hcalm. cbn zeta.
  rewrite (save_file_eq _ _ _ h name path Hc Hs Hsel). cbn zeta.
  rewrite (file_w_eq _ _ _ cl n Hcl Hlive Hn Hreg), (Hcalm 0%nat) by lia.
  rewrite Henc.
  set (f := resolve (Transport.home cl) path).
  set (w1 := set_hosts _ (served (CallFile h path ModeW) w)).
  assert (Hfs1 : Transport.fs_of w1 cl !! f = Some (mkNode Regular (n_perm n) [])).
  { unfold w1. rewrite fs_of_put. apply lookup_insert_eq. }
  rewrite (write_eq h f bytes w1 cl _ Hcl Hlive Hfs1). cbn zeta.
  assert (Hf1 : nth_fault 0 w1 = None).
  { change (nth_fault 0 w1) with (nth_fault 0 (served (CallFile h path ModeW) w)).
    rewrite nth_fault_served. apply Hcalm. lia. }
  rewrite Hf1. cbn [fst snd n_kind n_perm].
  set (w2 := set_hosts _ (served (CallWrite h f bytes) w1)).
  set (a1 := show (Information "Save Success" ("Saved changes to " +:+ name)) a).
  assert (Hfs2 : Transport.fs_of w2 cl !! f = Some (mkNode Regular (n_perm n) bytes)).
  { unfold w2. rewrite fs_of_put. apply lookup_insert_eq. }
  split; [unfold content; now rewrite Hfs2|].
  assert (Hsel2 : fst (selected_remote selection (set_text_editor typed a1, w2))
                  = Return (name, path)).
  { rewrite <- Hsel. now apply selected_remote_same. }
  assert (Hf2 : nth_fault 0 w2 = None).
  { change (nth_fault 0 w2) with (nth_fault 0 (served (CallWrite h f bytes) w1)).
    rewrite nth_fault_served.
    change (nth_fault 1 w1) with (nth_fault 1 (served (CallFile h path ModeW) w)).
    rewrite nth_fault_served. apply Hcalm. lia. }
  assert (Hf3 : nth_fault 1 w2 = None).
  { change (nth_fault 1 w2) with (nth_fault 1 (served (CallWrite h f bytes) w1)).
    rewrite nth_fault_served.
    change (nth_fault 2 w1) with (nth_fault 2 (served (CallFile h path ModeW) w)).
    rewrite nth_fault_served. apply Hcalm. lia. }
  rewrite (open_file_on_regular selection (set_text_editor typed a1) w2 h cl
             (mkNode Regular (n_perm n) bytes) name path Hc Hs Hsel2 Hcl Hlive Hfs2
             eq_refl Hf2 Hf3).
  cbn [n_data fst snd]. rewrite (decode_encode _ _ Henc). now split.
Qed.

Lemma save_then_open_round_trip_witness :
  let a := fst (Demo.typing "v2" (Demo.logged_in [])) in
  let w := snd (Demo.typing "v2" (Demo.logged_in [])) in
  let s1 := snd (save_file (Demo.pick 0) (a, w)) in
  let s2 := snd (open_file (Demo.pick 0) (set_text_editor [] (fst s1), snd s1)) in
  text_editor a = Demo.text_of "v2"
  /\ text_editor (fst s2) = text_editor a /\ text_editor_visible (fst s2) = true.
Proof.
  cbn zeta. split; [vm_compute; reflexivity|].
  refine (proj2 (save_then_open_round_trip (Demo.pick 0)
              (fst (Demo.typing "v2" (Demo.logged_in [])))
              (snd (Demo.typing "v2" (Demo.logged_in [])))
              0%nat Demo.u (Demo.reg "old") "notes.txt" "./notes.txt"
              (Demo.bytes_of "v2") [] _ _ _ _ _ _ _ _ _)).
  1-8: vm_compute; reflexivity.
  intros i _. vm_compute. now destruct i.
Defined.

(** ** Reconnecting *)

(** X20: a reconnect that fails keeps the old session in use and out of
    reach of Disconnect.  From a connected application whose transport is
    open, a failed connect leaves the sftp handle on the old transport, which
    is still open, so the operations keep passing the connection check; but
    [self.ssh] now names the new client, and a following disconnect closes
    that one: both handles become [None] while the old transport stays open. *)
Theorem failed_reconnect_keeps_old_transport (host username password : string)
    (a : SCPClientApp) (w : world) (flt : fault) (h : handle) :
  connected a = true -> sftp a = Some h -> is_live w h = true ->
  truth host && truth username && truth password = true ->
  nth_fault 0 w = Some flt \/ (nth_fault 0 w = None /\ nth_fault 1 w = Some flt) ->
  let s' := snd (connect_ssh host username password (a, w)) in
  let s'' := snd (disconnect_ssh s') in
  connected (fst s') = true
  /\ sftp (fst s') = Some h
  /\ ssh (fst s') = Some (length (clients w))
  /\ is_live (snd s') h = true
  /\ (nth_fault 0 (snd s') = None ->
      session (fst s'') = (None, None)
      /\ scp (fst s'') = scp a
      /\ is_live (snd s'') h = true).
Proof.
  intros Hc Hs Hlive Ht Hflt. cbn zeta.
  pose proof (connect_ssh_failed host username password a w flt Ht Hflt) as Ha.
  pose proof (keeps_open_connect_ssh host username password (a, w)) as [Hopen _].
  cbn [snd] in Hopen. specialize (Hopen h Hlive).
  destruct (snd (connect_ssh host username password (a, w))) as [a' w'].
  cbn [fst snd] in *. subst a'.
  split; [unfold connected; cbn; now rewrite Hs|].
  split; [exact Hs|]. split; [reflexivity|]. split; [exact Hopen|].
  intros Hcalm. rewrite disconnect_ssh_eq. cbn [ssh show set_ssh].
  assert (Hne : h <> length (clients w)).
  { unfold is_live in Hlive. destruct (clients w !! h) eqn:E; [|discriminate].
    apply lookup_lt_Some in E. lia. }
  pose proof (close_keeps_others (length (clients w)) h w' Hne) as Hk.
  rewrite close_eq, Hcalm in Hk |- *. cbn [fst snd] in *.
  split; [reflexivity|]. split; [reflexivity|].
  unfold is_live in Hopen |- *. now rewrite Hk.
Qed.

Lemma failed_reconnect_keeps_old_transport_witness :
  let refused := mkFault (OtherException "AuthenticationException" "Authentication failed.") 0 in
  let s' := snd (connect_ssh "h" "u" "wrong" (Demo.logged_in [Some refused])) in
  let s'' := snd (disconnect_ssh s') in
  connected (fst s') = true
  /\ session (fst s'') = (None, None)
  /\ is_live (snd s'') 0%nat = true.
Proof.
  cbn zeta.
  destruct (failed_reconnect_keeps_old_transport "h" "u" "wrong"
              (fst (Demo.logged_in [Some (mkFault (OtherException "AuthenticationException"
                                                     "Authentication failed.") 0)]))
              (snd (Demo.logged_in [Some (mkFault (OtherException "AuthenticationException"
                                                     "Authentication failed.") 0)]))
              (mkFault (OtherException "AuthenticationException" "Authentication failed.") 0)
              0%nat eq_refl eq_refl eq_refl eq_refl (or_introl eq_refl))
    as (Hc & _ & _ & _ & Hd).
  destruct (Hd eq_refl) as (Hsess & _ & Hlive).
  split; [exact Hc|]. split; [exact Hsess | exact Hlive].
Defined.

(** ** Transfers *)

Lemma request_trace {A} (h : handle) (c : call)
    (serve : client -> filesystem -> M world A) (w : world) :
  (forall cl fs w', trace (snd (serve cl fs w')) = trace w') ->
  trace (snd (Transport.request h c serve w)) = trace w ++ [c].
Proof.
  intros Hserve.
  unfold Transport.request, Transport.log, Transport.live_client, bind, modify, gets, throw.
  rewrite next_fault_eq. fold (served c w).
  change (nth_fault 0 _) with (nth_fault 0 w).
  destruct (nth_fault 0 w); [reflexivity|].
  change (clients (served c w)) with (clients w).
  destruct (clients w !! h) as [cl|]; [|reflexivity].
  destruct (c_status cl); try reflexivity. cbn [ret fst snd].
  unfold ret. cbn [fst snd]. apply Hserve.
Qed.

Lemma put_trace (h : handle) (local remote : string) (w : world) :
  trace (snd (Transport.put h local remote w)) = trace w ++ [CallPut h local remote].
Proof.
  apply request_trace. intros cl fs w'. unfold bind, gets. cbn [fst snd].
  now destruct (local_files w' !! local).
Qed.

Lemma get_trace (h : handle) (remote local_dir : string) (w : world) :
  trace (snd (Transport.get h remote local_dir w)) = trace w ++ [CallGet h remote local_dir].
Proof.
  apply request_trace. intros cl fs w'.
  destruct (fs !! resolve (Transport.home cl) remote) as [n|]; [|reflexivity].
  now destruct (n_kind n).
Qed.

(** X21: a transfer is one call and one box.  An upload hands the first
    selected local path and the current remote directory to [scp.put]; a
    download hands the path of the selected entry and the chosen directory to
    [scp.get].  Either makes exactly that one transport call and then shows
    one box: the success message if the call returned, the error if it
    raised. *)
Theorem transfers_make_one_call (a : SCPClientApp) (w : world) (h : handle) :
  connected a = true -> scp a = Some h ->
  (forall local rest,
     let r := upload_file (local :: rest) (a, w) in
     trace (snd (snd r)) = trace w ++ [CallPut h local (remote_path a)]
     /\ fst (snd r)
        = show (match fst (Transport.put h local (remote_path a) w) with
                | Return _ => Information "Upload Success"
                                ("Uploaded " +:+ local +:+ " to remote server.")
                | Raise e => Critical "Upload Failed" "Error uploading file: " e
                end) a)
  /\ (forall selection name path local_dir,
       fst (selected_remote selection (a, w)) = Return (name, path) ->
       truth local_dir = true ->
       let r := download_file selection local_dir (a, w) in
       trace (snd (snd r)) = trace w ++ [CallGet h path local_dir]
       /\ fst (snd r)
          = show (match fst (Transport.get h path local_dir w) with
                  | Return _ => Information "Download Success"
                                  ("Downloaded " +:+ path +:+ " to " +:+ local_dir +:+ ".")
                  | Raise e => Critical "Download Failed" "Error downloading file: " e
                  end) a).
Proof.
  intros Hc Hs. split.
  - intros local rest. cbn zeta.
    assert (Heq : upload_file (local :: rest) (a, w)
                  = (Return tt,
                     (show (match fst (Transport.put h local (remote_path a) w) with
                            | Return _ => Information "Upload Success"
                                            ("Uploaded " +:+ local +:+ " to remote server.")
                            | Raise e => Critical "Upload Failed" "Error uploading file: " e
                            end) a,
                      snd (Transport.put h local (remote_path a) w)))).
    { unfold upload_file. unfold_ui. unfold bind at 1. unfold self, gets.
      cbn [fst snd id]. rewrite Hc. cbn [negb]. unfold bind at 1, of_outcome.
      change (py_getitem (local :: rest) 0) with (Return local). cbn [fst snd].
      rewrite Hs. unfold_monad. cbn [fst snd].
      now destruct (Transport.put h local (remote_path a) w) as [[[]|e] w']. }
    rewrite Heq. cbn [fst snd]. split; [apply put_trace|reflexivity].
  - intros selection name path local_dir Hsel Hdir. cbn zeta.
    apply selected_remote_inv in Hsel as [Hsel _].
    assert (Heq : download_file selection local_dir (a, w)
                  = (Return tt,
                     (show (match fst (Transport.get h path local_dir w) with
                            | Return _ =>
                                Information "Download Success"
                                  ("Downloaded " +:+ path +:+ " to " +:+ local_dir +:+ ".")
                            | Raise e =>
                                Critical "Download Failed" "Error downloading file: " e
                            end) a,
                      snd (Transport.get h path local_dir w)))).
    { unfold download_file. unfold_ui. unfold bind at 1. unfold self, gets.
      cbn [fst snd id]. rewrite Hc. cbn [negb]. unfold bind at 1. rewrite Hsel.
      cbn [fst snd]. rewrite Hdir, Hs. unfold_monad. cbn [fst snd].
      now destruct (Transport.get h path local_dir w) as [[[]|e] w']. }
    rewrite Heq. cbn [fst snd]. split; [apply get_trace|reflexivity].
Qed.

Lemma transfers_make_one_call_witness :
  let s := Demo.logged_in [] in
  trace (snd (snd (download_file (Demo.pick 0) "/tmp" s)))
  = trace (snd s) ++ [CallGet 0%nat "./notes.txt" "/tmp"]
  /\ fst (snd (download_file (Demo.pick 0) "/tmp" s))
     = show (Information "Download Success" "Downloaded ./notes.txt to /tmp.") (fst s).
Proof.
  cbn zeta.
  destruct (proj2 (transfers_make_one_call (fst (Demo.logged_in []))
              (snd (Demo.logged_in [])) 0%nat eq_refl eq_refl)
              (Demo.pick 0) "notes.txt" "./notes.txt" "/tmp" eq_refl eq_refl)
    as [Ht Ha].
  split; [exact Ht|]. exact Ha.
Defined.
